(** * Time accounting of the work-hour tracker

    A shallow embedding of the time helpers of the tracker
    ([parseTime], [formatTime], [calcNightMinutes]), of the worked-minutes
    derivation of the form's submit handler and of the reductions made by
    [renderSummary], followed by the properties the specification states
    about them.  The entries kept in local storage ([loadEntries],
    [saveEntry], the delete buttons, [entryMapByDate]), the vacation
    allowance, the month navigation ([shiftMonth]) and the grid of
    [renderCalendar] are embedded as well, with the properties the code
    itself shows.

    The tracker is TypeScript compiled to JavaScript, so the first module
    fixes the part of the host language the helpers rely on: numbers,
    [Number(..)] applied to a string, [toString], [padStart], [split] and
    [slice]. *)

From Stdlib Require Import ZArith QArith Qabs List String Ascii Bool Lia.
From Stdlib Require Qcanon.
Import ListNotations.

Local Open Scope string_scope.
Local Open Scope Z_scope.

(* ================================================================= *)
(** ** The host language *)

Module JS.

(** A JavaScript number.  Finite values are kept exact; this agrees with
    IEEE doubles on every integer of magnitude up to [2^53], far above
    any minute count of the tracker.  The sign of zero is not tracked. *)
Inductive number : Type :=
| NaN
| PosInfinity
| NegInfinity
| Fin (q : Q).

Definition ofZ (z : Z) : number := Fin (inject_Z z).

(** [Number.isFinite] *)
Definition isFinite (x : number) : bool :=
  match x with
  | Fin _ => true
  | _ => false
  end.

Definition Qsign (q : Q) : comparison := (Qnum q ?= 0)%Z.

(** [x * y] on numbers *)
Definition mul (x y : number) : number :=
  let inf (positive : bool) := if positive then PosInfinity else NegInfinity in
  let scaled (positive : bool) (q : Q) :=
    match Qsign q with
    | Eq => NaN
    | Gt => inf positive
    | Lt => inf (negb positive)
    end in
  match x, y with
  | NaN, _ | _, NaN => NaN
  | Fin a, Fin b => Fin (Qred (a * b))
  | PosInfinity, Fin b | Fin b, PosInfinity => scaled true b
  | NegInfinity, Fin b | Fin b, NegInfinity => scaled false b
  | PosInfinity, PosInfinity | NegInfinity, NegInfinity => PosInfinity
  | PosInfinity, NegInfinity | NegInfinity, PosInfinity => NegInfinity
  end.

(** [x + y] on numbers *)
Definition add (x y : number) : number :=
  match x, y with
  | NaN, _ | _, NaN => NaN
  | Fin a, Fin b => Fin (Qred (a + b))
  | PosInfinity, NegInfinity | NegInfinity, PosInfinity => NaN
  | PosInfinity, _ | _, PosInfinity => PosInfinity
  | NegInfinity, _ | _, NegInfinity => NegInfinity
  end.

(** *** Strings

    A string is its sequence of code units; the embedding covers code
    units below 256. *)

Definition code (c : ascii) : Z := Z.of_N (N_of_ascii c).

(** [StrWhiteSpaceChar]: TAB, LF, VT, FF, CR, SP and NBSP. *)
Definition isStrWhiteSpaceChar (c : ascii) : bool :=
  let n := code c in
  ((9 <=? n) && (n <=? 13)) || (n =? 32) || (n =? 160).

Fixpoint dropWhile {A} (f : A -> bool) (l : list A) : list A :=
  match l with
  | [] => []
  | x :: l' => if f x then dropWhile f l' else l
  end.

(** Removal of leading and trailing white space, as [StringToNumber]
    (and [trim]) does it. *)
Definition trimChars (cs : list ascii) : list ascii :=
  rev (dropWhile isStrWhiteSpaceChar (rev (dropWhile isStrWhiteSpaceChar cs))).

(** The value of a digit in a radix up to 16, when [c] is one. *)
Definition digitValue (radix : Z) (c : ascii) : option Z :=
  let n := code c in
  let v := if (48 <=? n) && (n <=? 57) then n - 48          (* 0-9 *)
           else if (97 <=? n) && (n <=? 102) then n - 87    (* a-f *)
           else if (65 <=? n) && (n <=? 70) then n - 55     (* A-F *)
           else radix in
  if v <? radix then Some v else None.

(** The longest prefix of digits, with what follows it. *)
Fixpoint spanDigits (radix : Z) (cs : list ascii) : list Z * list ascii :=
  match cs with
  | [] => ([], [])
  | c :: cs' =>
      match digitValue radix c with
      | Some d => let (ds, rest) := spanDigits radix cs' in (d :: ds, rest)
      | None => ([], cs)
      end
  end.

(** The mathematical value of a digit sequence. *)
Definition digitsValue (radix : Z) (ds : list Z) : Z :=
  fold_left (fun acc d => radix * acc + d) ds 0.

Definition isNil {A} (l : list A) : bool :=
  match l with [] => true | _ => false end.

(** [ExponentPart_opt] up to the end of the input: the exponent. *)
Definition exponentPart (cs : list ascii) : option Z :=
  match cs with
  | [] => Some 0
  | c :: rest =>
      if (code c =? 101) || (code c =? 69) then              (* e E *)
        let (negative, rest') :=
          match rest with
          | s :: r => if code s =? 43 then (false, r)         (* + *)
                      else if code s =? 45 then (true, r)     (* - *)
                      else (false, rest)
          | [] => (false, rest)
          end in
        match spanDigits 10 rest' with
        | ((_ :: _) as ds, []) =>
            Some (if negative then - digitsValue 10 ds else digitsValue 10 ds)
        | _ => None
        end
      else None
  end.

(** [n * 10^e] as an exact rational. *)
Definition scale10 (n e : Z) : Q :=
  if 0 <=? e then inject_Z (n * 10 ^ e)
  else Qred (Qmake n (Z.to_pos (10 ^ (- e)))).

(** A literal whose value is at least [2^1024 - 2^970] rounds to
    infinity; below that the exact value is kept. *)
Definition overflows (q : Q) : bool :=
  Qle_bool (inject_Z (2 ^ 1024 - 2 ^ 970)) (Qabs q).

Definition roundMV (q : Q) : number :=
  if overflows q then PosInfinity else Fin q.

(** [StrUnsignedDecimalLiteral]: [Infinity], digits with an optional
    fraction and exponent, or a fraction that starts with the point. *)
Definition strUnsignedDecimalLiteral (cs : list ascii) : option number :=
  if String.eqb (string_of_list_ascii cs) "Infinity" then Some PosInfinity
  else
    let (ip, rest) := spanDigits 10 cs in
    match rest with
    | c :: rest1 =>
        if code c =? 46 then                                   (* . *)
          let (fp, rest2) := spanDigits 10 rest1 in
          if isNil ip && isNil fp then None
          else
            match exponentPart rest2 with
            | Some e =>
                Some (roundMV (scale10 (digitsValue 10 (ip ++ fp)%list)
                                       (e - Z.of_nat (List.length fp))))
            | None => None
            end
        else if isNil ip then None
        else
          match exponentPart rest with
          | Some e => Some (roundMV (scale10 (digitsValue 10 ip) e))
          | None => None
          end
    | [] =>
        if isNil ip then None
        else Some (roundMV (inject_Z (digitsValue 10 ip)))
    end.

Definition negate (x : number) : number :=
  match x with
  | NaN => NaN
  | PosInfinity => NegInfinity
  | NegInfinity => PosInfinity
  | Fin q => Fin (Qred (- q))
  end.

(** [NonDecimalIntegerLiteral]: [0x], [0o] or [0b] (either case) and at
    least one digit of that radix. *)
Definition nonDecimalIntegerLiteral (cs : list ascii) : option number :=
  match cs with
  | z :: p :: body =>
      let radix :=
        if negb (code z =? 48) then None
        else if (code p =? 120) || (code p =? 88) then Some 16   (* x X *)
        else if (code p =? 111) || (code p =? 79) then Some 8    (* o O *)
        else if (code p =? 98) || (code p =? 66) then Some 2     (* b B *)
        else None in
      match radix with
      | Some r =>
          match spanDigits r body with
          | ((_ :: _) as ds, []) => Some (roundMV (inject_Z (digitsValue r ds)))
          | _ => None
          end
      | None => None
      end
  | _ => None
  end.

(** [StrNumericLiteral] *)
Definition strNumericLiteral (cs : list ascii) : option number :=
  match nonDecimalIntegerLiteral cs with
  | Some x => Some x
  | None =>
      match cs with
      | s :: rest =>
          if code s =? 43 then strUnsignedDecimalLiteral rest
          else if code s =? 45 then option_map negate (strUnsignedDecimalLiteral rest)
          else strUnsignedDecimalLiteral cs
      | [] => None
      end
  end.

(** [StringToNumber]: white space is trimmed, the empty string is [0],
    a numeric literal is its value and anything else is [NaN]. *)
Definition StringToNumber (s : string) : number :=
  match trimChars (list_ascii_of_string s) with
  | [] => ofZ 0
  | cs =>
      match strNumericLiteral cs with
      | Some x => x
      | None => NaN
      end
  end.

(** What indexing an array of strings evaluates to. *)
Inductive value : Type :=
| Undefined
| Str (s : string).

(** [parts[i]] *)
Definition index (parts : list string) (i : nat) : value :=
  match nth_error parts i with
  | Some s => Str s
  | None => Undefined
  end.

(** [Number(v)] *)
Definition Number (v : value) : number :=
  match v with
  | Undefined => NaN
  | Str s => StringToNumber s
  end.

(** [str.split(sep)] for a separator of one code unit. *)
Fixpoint split (sep : ascii) (s : string) : list string :=
  match s with
  | EmptyString => [EmptyString]
  | String c s' =>
      if Ascii.eqb c sep then EmptyString :: split sep s'
      else
        match split sep s' with
        | p :: ps => String c p :: ps
        | [] => [String c EmptyString]
        end
  end.

(** [s.slice(0, n)] *)
Definition slice0 (n : nat) (s : string) : string := substring 0 n s.

(** [s.padStart(n, fill)] for a filler of one code unit. *)
Definition padStart (n : nat) (fill : ascii) (s : string) : string :=
  string_of_list_ascii (repeat fill (n - String.length s)) ++ s.

(** The decimal digits of a natural number, most significant first. *)
Fixpoint digitsOf (fuel : nat) (n : Z) (acc : list ascii) : list ascii :=
  let acc' := ascii_of_N (Z.to_N (48 + n mod 10)) :: acc in
  match fuel with
  | O => acc'
  | S fuel' => if n <? 10 then acc' else digitsOf fuel' (n / 10) acc'
  end.

(** [n.toString()] for an integer [n] (of magnitude below [10^21], from
    where JavaScript switches to the exponent notation). *)
Definition toString (n : Z) : string :=
  let body (m : Z) := string_of_list_ascii (digitsOf (Z.to_nat (Z.log2 m)) m []) in
  if n <? 0 then String "-" (body (- n)) else body n.

(** [parseInt(s)], no radix given: leading white space is dropped, then
    a sign, then [0x] or [0X] (which selects radix 16, else 10); the
    digits that follow are the value, and [NaN] if there is none.  What
    comes after the digits is ignored. *)
Definition parseInt (s : string) : number :=
  let S := dropWhile isStrWhiteSpaceChar (list_ascii_of_string s) in
  let (negative, S) :=
    match S with
    | c :: r => if code c =? 45 then (true, r)                 (* - *)
                else if code c =? 43 then (false, r)           (* + *)
                else (false, S)
    | [] => (false, S)
    end in
  let (R, S) :=
    match S with
    | z :: x :: r =>
        if (code z =? 48) && ((code x =? 120) || (code x =? 88)) then (16, r)
        else (10, S)
    | _ => (10, S)
    end in
  match fst (spanDigits R S) with
  | [] => NaN
  | ds =>
      let v := roundMV (inject_Z (digitsValue R ds)) in
      if negative then negate v else v
  end.

(** [l.findIndex(f)]: the first index where [f] holds, or [-1]. *)
Fixpoint findIndex {A} (f : A -> bool) (l : list A) : Z :=
  match l with
  | [] => -1
  | x :: l' =>
      if f x then 0
      else let i := findIndex f l' in if i =? -1 then -1 else i + 1
  end.

(** [l[i] = x] for an index inside the array, and for the index just
    past its end, where the array grows by one.  (Further out JavaScript
    leaves holes; the tracker only assigns at an index that [findIndex]
    found.) *)
Fixpoint assign {A} (l : list A) (i : nat) (x : A) : list A :=
  match l, i with
  | [], _ => [x]
  | _ :: t, O => x :: t
  | h :: t, S i' => h :: assign t i' x
  end.

(** What a function body completes with. *)
Inductive completion (A : Type) : Type :=
| Return (a : A)
| Throw (message : string).
Arguments Return {A} a.
Arguments Throw {A} message.

End JS.

Import JS.

(* ================================================================= *)
(** ** Time utilities *)

(** The message of the error [parseTime] throws; the specification calls
    this error [InvalidFormat]. *)
Definition InvalidFormat : string := "Invalid time format".

(** [parseTime(str)] *)
Definition parseTime (str : string) : completion number :=
  let parts := split ":" str in
  let h := Number (index parts 0) in
  let m := Number (index parts 1) in
  if negb (isFinite h) || negb (isFinite m) then Throw InvalidFormat
  else Return (add (mul h (ofZ 60)) m).

(** [formatTime(minutes)] on an integer count of minutes:
    [Math.floor(minutes / 60)] is the floor division and [minutes % 60]
    the remainder that takes the sign of [minutes]. *)
Definition formatTime (minutes : Z) : string :=
  let h := padStart 2 "0" (toString (minutes / 60)) in
  let m := padStart 2 "0" (toString (Z.rem minutes 60)) in
  h ++ ":" ++ m.

(* ================================================================= *)
(** ** Night bonus minutes *)

(** The loop of [calcNightMinutes],
    [for (let t = start; t < end; t++) { ... }], as a function of its
    state: the counter [t] and the running [nightMinutes].  Each unit of
    [fuel] pays for one run of the body; [None] means the fuel ran out
    before the loop condition failed. *)
Fixpoint nightLoop (fuel : nat) (end_ pauseStart pauseEnd t nightMinutes : Z)
  : option Z :=
  if t <? end_ then
    match fuel with
    | O => None
    | S fuel' =>
        if (pauseStart <=? t) && (t <? pauseEnd) then
          nightLoop fuel' end_ pauseStart pauseEnd (t + 1) nightMinutes
        else
          let minuteOfDay := Z.rem t 1440 in
          if (minuteOfDay <? 360) || (1200 <=? minuteOfDay) then
            nightLoop fuel' end_ pauseStart pauseEnd (t + 1) (nightMinutes + 1)
          else
            nightLoop fuel' end_ pauseStart pauseEnd (t + 1) nightMinutes
    end
  else Some nightMinutes.

(** [calcNightMinutes(start, end, pauseMin)] on integer minutes.  The loop
    is given one unit of fuel per minute of the shift; that this is
    enough is part of every statement below, which all show a [Some]. *)
Definition calcNightMinutes (start end_ pauseMin : Z) : option Z :=
  let end_ := if end_ <? start then end_ + 1440 else end_ in
  let totalWorked := end_ - start in
  if totalWorked <=? 0 then Some 0
  else
    let pauseStart := start + totalWorked / 2 - pauseMin / 2 in
    let pauseEnd := pauseStart + pauseMin in
    nightLoop (Z.to_nat totalWorked) end_ pauseStart pauseEnd start 0.

(* ================================================================= *)
(** ** Entries *)

Inductive EntryType : Type := normal | vacation | sick.

Definition EntryType_eqb (a b : EntryType) : bool :=
  match a, b with
  | normal, normal | vacation, vacation | sick, sick => true
  | _, _ => false
  end.

Record Entry : Type := mkEntry {
  date : string;            (* YYYY-MM-DD *)
  type : EntryType;
  workedMinutes : Z;
  nightMinutes : Z
}.

(** What the submit handler of the form ends with: an alert, and nothing
    stored; or an entry handed to [upsertEntry].  [Unfinished] stands for
    a night loop that ran out of fuel. *)
Inductive Submission : Type :=
| Alerted (message : string)
| Upserted (entry : Entry)
| Unfinished.

(** The submit handler of the form, from the chosen date and kind and,
    for a normal day, the start and end minutes ([parseTime] of the two
    time fields, which the handler reads once it has found both filled
    in) and the pause.  An empty date is refused first, for every kind
    ([if (!date) return alert(..)]). *)
Definition submitEntry (date : string) (type : EntryType)
    (startMin endMin pauseMin : Z) : Submission :=
  if String.eqb date "" then Alerted "Please choose a date."
  else
    match type with
    | normal =>
        let totalWorkMin := endMin - startMin - pauseMin in
        let totalWorkMin :=
          if totalWorkMin <? 0 then totalWorkMin + 1440 else totalWorkMin in
        match calcNightMinutes startMin endMin pauseMin with
        | Some nightMin => Upserted (mkEntry date type totalWorkMin nightMin)
        | None => Unfinished
        end
    | _ => Upserted (mkEntry date type 480 0)
    end.

(* ================================================================= *)
(** ** Summaries *)

(** The month part of [renderSummary]: the entries of the month, their
    sums and the days of each kind. *)
Record MonthlySummary : Type := mkMonthlySummary {
  totalWorkedMonth : Z;
  totalNightMonth : Z;
  daysNormal : nat;
  daysVacation : nat;
  daysSick : nat
}.

Definition monthEntries (entries : list Entry) (monthKey : string) : list Entry :=
  filter (fun e => String.eqb (slice0 7 (date e)) monthKey) entries.

Definition yearEntries (entries : list Entry) (yearKey : string) : list Entry :=
  filter (fun e => String.eqb (slice0 4 (date e)) yearKey) entries.

Definition summarizeMonth (entries : list Entry) (monthKey : string)
  : MonthlySummary :=
  let monthEntries := monthEntries entries monthKey in
  {| totalWorkedMonth := fold_left (fun s e => s + workedMinutes e) monthEntries 0;
     totalNightMonth := fold_left (fun s e => s + nightMinutes e) monthEntries 0;
     daysNormal :=
       List.length (filter (fun e => EntryType_eqb (type e) normal) monthEntries);
     daysVacation :=
       List.length (filter (fun e => EntryType_eqb (type e) vacation) monthEntries);
     daysSick :=
       List.length (filter (fun e => EntryType_eqb (type e) sick) monthEntries) |}.

(** The year part of [renderSummary]: vacation days taken and left. *)
Record VacationSummary : Type := mkVacationSummary {
  vacUsedThisYear : Z;
  remaining : Z
}.

Definition summarizeVacation (entries : list Entry) (yearKey : string)
    (allowance : Z) : VacationSummary :=
  let yearEntries := yearEntries entries yearKey in
  let vacUsedThisYear :=
    Z.of_nat (List.length (filter (fun e => EntryType_eqb (type e) vacation) yearEntries)) in
  {| vacUsedThisYear := vacUsedThisYear;
     remaining := Z.max 0 (allowance - vacUsedThisYear) |}.

(** [renderSummary] for the entries at hand, the values of the year and
    month pickers and the stored allowance: what it computes before it
    writes the page. *)
Definition renderSummary (entries : list Entry) (yearValue monthValue : string)
    (allowance : Z) : MonthlySummary * VacationSummary :=
  let monthKey := yearValue ++ "-" ++ monthValue in
  let yearKey := yearValue in
  (summarizeMonth entries monthKey, summarizeVacation entries yearKey allowance).

(* ================================================================= *)
(** ** The specification's reading of the night bonus *)

(** The integers [a], [a + 1], ... ([n] of them). *)
Fixpoint zrange (a : Z) (n : nat) : list Z :=
  match n with
  | O => []
  | S n' => a :: zrange (a + 1) n'
  end.

(** The integer minutes [t] with [a <= t < b]. *)
Definition minutesOf (a b : Z) : list Z := zrange a (Z.to_nat (b - a)).

(** Step 1 of the algorithm: the end of the shift, past midnight when it
    is before the start. *)
Definition adjustedEnd (start end_ : Z) : Z :=
  if end_ <? start then end_ + 1440 else end_.

(** The wrap-adjusted length of the shift. *)
Definition shiftLength (start end_ : Z) : Z := adjustedEnd start end_ - start.

(** Step 3: where the pause is placed. *)
Definition pauseStartOf (start end_ pauseMin : Z) : Z :=
  start + shiftLength start end_ / 2 - pauseMin / 2.

Definition pauseEndOf (start end_ pauseMin : Z) : Z :=
  pauseStartOf start end_ pauseMin + pauseMin.

(** Minute [t] lies in the window [lo <= t < hi]. *)
Definition inWindow (lo hi t : Z) : bool := (lo <=? t) && (t <? hi).

(** Minute [t] is in the night window: its minute of the day, the
    remainder [t % 1440] of the host language, is before 06:00 or from
    20:00 on. *)
Definition isNightMinute (t : Z) : bool :=
  (Z.rem t 1440 <? 360) || (1200 <=? Z.rem t 1440).

(** Step 4: the number of minutes [t] of [[a, b)] outside the window
    [[lo, hi)] that are night minutes. *)
Definition nightCount (a b lo hi : Z) : Z :=
  Z.of_nat (List.length
    (filter (fun t => negb (inWindow lo hi t) && isNightMinute t) (minutesOf a b))).

(** The algorithm of the specification, steps 1 to 5. *)
Definition spec_nightMinutes (start end_ pauseMin : Z) : Z :=
  if shiftLength start end_ <=? 0 then 0
  else nightCount start (adjustedEnd start end_)
         (pauseStartOf start end_ pauseMin) (pauseEndOf start end_ pauseMin).

(* ================================================================= *)
(** ** Auxiliary definitions for the clock time and the summaries *)

(** Equality of numbers, as a test. *)
Definition number_eqb (x y : number) : bool :=
  match x, y with
  | NaN, NaN | PosInfinity, PosInfinity | NegInfinity, NegInfinity => true
  | Fin a, Fin b => (Qnum a =? Qnum b) && Pos.eqb (Qden a) (Qden b)
  | _, _ => false
  end.

(** A field of two digits, as [formatTime] writes the hours and the
    minutes below 100. *)
Definition twoDigits (x : Z) : string :=
  String (ascii_of_N (Z.to_N (48 + x / 10)))
    (String (ascii_of_N (Z.to_N (48 + x mod 10))) EmptyString).

Fixpoint hasColon (s : string) : bool :=
  match s with
  | EmptyString => false
  | String c s' => Ascii.eqb c ":" || hasColon s'
  end.

(** The number of vacation entries whose date falls in a year, that is
    whose first four characters (the year of [YYYY-MM-DD]) are the year
    asked for; entry by entry. *)
Fixpoint vacationDaysIn (yearKey : string) (entries : list Entry) : Z :=
  match entries with
  | [] => 0
  | e :: rest =>
      match type e with
      | vacation =>
          if string_dec (slice0 4 (date e)) yearKey
          then 1 + vacationDaysIn yearKey rest
          else vacationDaysIn yearKey rest
      | _ => vacationDaysIn yearKey rest
      end
  end.

(** The number of entries whose date falls in a month, that is whose
    first seven characters (the [YYYY-MM] of [YYYY-MM-DD]) are the month
    key; entry by entry. *)
Fixpoint entriesInMonth (monthKey : string) (entries : list Entry) : nat :=
  match entries with
  | [] => O
  | e :: rest =>
      if string_dec (substring 0 7 (date e)) monthKey
      then S (entriesInMonth monthKey rest)
      else entriesInMonth monthKey rest
  end.

(* ================================================================= *)
(** ** Local storage, as the tracker uses it *)

(** The two items the tracker keeps in [localStorage].  The item
    [entries] holds the JSON text of an array of entries and is kept here
    as the array it encodes; [vacAllowance] holds a text.  [None] is an
    item that was never set. *)
Record Storage : Type := mkStorage {
  entriesItem : option (list Entry);
  vacAllowanceItem : option string
}.

(** [loadEntries()] *)
Definition loadEntries (st : Storage) : list Entry :=
  match entriesItem st with
  | Some data => data
  | None => []
  end.

(** [saveEntry(entry)] *)
Definition saveEntry (st : Storage) (entry : Entry) : Storage :=
  let entries := loadEntries st in
  let idx := findIndex (fun e => String.eqb (date e) (date entry)) entries in
  let entries :=
    if negb (idx =? -1) then assign entries (Z.to_nat idx) entry
    else (entries ++ [entry])%list in
  {| entriesItem := Some entries; vacAllowanceItem := vacAllowanceItem st |}.

(** The delete button of a history row and of the day drawer:
    [loadEntries().filter(e => e.date !== date)] is stored back. *)
Definition deleteEntry (st : Storage) (dateISO : string) : Storage :=
  let updated :=
    filter (fun e => negb (String.eqb (date e) dateISO)) (loadEntries st) in
  {| entriesItem := Some updated; vacAllowanceItem := vacAllowanceItem st |}.

(** [loadEntries().find(e => e.date === dateISO)], as the drawer's edit
    button looks an entry up. *)
Definition findEntry (st : Storage) (dateISO : string) : option Entry :=
  find (fun e => String.eqb (date e) dateISO) (loadEntries st).

(** [entryMapByDate()]: the object built by [map[e.date] = e] over the
    entries, as the function from a key to its own property. *)
Definition entryMapByDate (st : Storage) : string -> option Entry :=
  fold_left
    (fun map e => fun key => if String.eqb key (date e) then Some e else map key)
    (loadEntries st) (fun _ => None).

(** [loadAllowance()] *)
Definition loadAllowance (st : Storage) : number :=
  let n :=
    match vacAllowanceItem st with
    | Some raw => if String.eqb raw "" then ofZ 30 else parseInt raw
    | None => ofZ 30
    end in
  if isFinite n then n else ofZ 30.

(** [saveAllowance(n)] for an integer [n]. *)
Definition saveAllowance (st : Storage) (n : Z) : Storage :=
  {| entriesItem := entriesItem st; vacAllowanceItem := Some (toString n) |}.

(* ================================================================= *)
(** ** Month navigation and the calendar grid *)

(** [shiftMonth(year, month, delta)] *)
Definition shiftMonth (year month delta : Z) : Z * Z :=
  let y := year in
  let m := month + delta in
  let '(y, m) := if m <=? 0 then (y - 1, 12) else (y, m) in
  let '(y, m) := if 12 <? m then (y + 1, 1) else (y, m) in
  (y, m).

(** [firstWeekdayIndexMonFirst], from the weekday [d] that [getDay()]
    gives for the first of the month (0 is Sunday). *)
Definition monFirstIndex (d : Z) : Z := Z.rem (d + 6) 7.

(** The number of cells [renderCalendar] adds after the month. *)
Definition trailingCells (leading days : Z) : Z :=
  Z.rem (7 - Z.rem (leading + days) 7) 7.

(** The date text of a cell:
    [`${y}-${String(m).padStart(2,"0")}-${String(d).padStart(2,"0")}`]. *)
Definition cellDate (y m d : Z) : string :=
  toString y ++ "-" ++ padStart 2 "0" (toString m)
             ++ "-" ++ padStart 2 "0" (toString d).

(** The cells of [renderCalendar], in the order they are appended, each
    with the two arguments of [makeCell]: its date and whether it is in
    the month.  [days], [leading] and [prevDays] are what [daysInMonth]
    and [firstWeekdayIndexMonFirst] gave for the month and the one
    before.  The three loops run [i] from [leading - 1] down to 0, [d]
    from 1 to [days] and [d] from 1 to the trailing count. *)
Definition calendarCells (y m days leading prevDays : Z) : list (string * bool) :=
  let trailing := trailingCells leading days in
  let prevMonth := if m =? 1 then 12 else m - 1 in
  let prevYear := if m =? 1 then y - 1 else y in
  let nextMonth := if m =? 12 then 1 else m + 1 in
  let nextYear := if m =? 12 then y + 1 else y in
  (map (fun i => (cellDate prevYear prevMonth (prevDays - i), false))
       (rev (zrange 0 (Z.to_nat leading)))
   ++ map (fun d => (cellDate y m d, true)) (zrange 1 (Z.to_nat days))
   ++ map (fun d => (cellDate nextYear nextMonth d, false))
          (zrange 1 (Z.to_nat trailing)))%list.

(** The entries after [saveEntry], entry by entry: the first entry of
    the same date is replaced, and without one the entry goes last. *)
Fixpoint upsert (entries : list Entry) (entry : Entry) : list Entry :=
  match entries with
  | [] => [entry]
  | e :: rest =>
      if String.eqb (date e) (date entry) then entry :: rest
      else e :: upsert rest entry
  end.

(** Dates taken one by one are all different. *)
Definition uniqueDates (entries : list Entry) : Prop := NoDup (map date entries).

(** The sums and counts of two monthly summaries, added. *)
Definition addSummaries (a b : MonthlySummary) : MonthlySummary :=
  {| totalWorkedMonth := totalWorkedMonth a + totalWorkedMonth b;
     totalNightMonth := totalNightMonth a + totalNightMonth b;
     daysNormal := daysNormal a + daysNormal b;
     daysVacation := daysVacation a + daysVacation b;
     daysSick := daysSick a + daysSick b |}.

(* ================================================================= *)
(** ** Results on the night bonus *)

Section NightMinutes.

Lemma zrange_length a n : List.length (zrange a n) = n.
Proof. revert a; induction n as [|n IH]; intros a; simpl; [|rewrite IH]; reflexivity. Qed.

Lemma In_zrange a n t : In t (zrange a n) <-> a <= t < a + Z.of_nat n.
Proof.
  revert a; induction n as [|n IH]; intros a.
  - simpl. lia.
  - cbn [zrange In]. rewrite IH. lia.
Qed.

Lemma NoDup_zrange a n : NoDup (zrange a n).
Proof.
  revert a; induction n as [|n IH]; intros a; cbn [zrange]; constructor.
  - rewrite In_zrange. lia.
  - apply IH.
Qed.

(** [minutesOf a b] lists each minute of [[a, b)], once. *)
Lemma In_minutesOf a b t : In t (minutesOf a b) <-> a <= t < b.
Proof. unfold minutesOf. rewrite In_zrange. lia. Qed.

Lemma NoDup_minutesOf a b : NoDup (minutesOf a b).
Proof. apply NoDup_zrange. Qed.

Lemma minutesOf_nil a b : b <= a -> minutesOf a b = [].
Proof.
  intros H. unfold minutesOf.
  replace (Z.to_nat (b - a)) with O by lia. reflexivity.
Qed.

Lemma minutesOf_cons a b : a < b -> minutesOf a b = a :: minutesOf (a + 1) b.
Proof.
  intros H. unfold minutesOf.
  replace (Z.to_nat (b - a)) with (S (Z.to_nat (b - (a + 1)))) by lia.
  reflexivity.
Qed.

Lemma nightCount_nil a b lo hi : b <= a -> nightCount a b lo hi = 0.
Proof. intros H. unfold nightCount. rewrite minutesOf_nil by assumption. reflexivity. Qed.

Lemma nightCount_cons a b lo hi :
  a < b ->
  nightCount a b lo hi =
  (if negb (inWindow lo hi a) && isNightMinute a then 1 else 0)
  + nightCount (a + 1) b lo hi.
Proof.
  intros H. unfold nightCount. rewrite minutesOf_cons by assumption.
  cbn [filter]. destruct (negb (inWindow lo hi a) && isNightMinute a);
    cbn [List.length]; lia.
Qed.

(** The loop counts: with fuel for the minutes left it stops, and has
    added the night minutes of [[t, end_)] outside the pause. *)
Lemma nightLoop_count fuel : forall end_ pauseStart pauseEnd t nightMinutes,
  (Z.to_nat (end_ - t) <= fuel)%nat ->
  nightLoop fuel end_ pauseStart pauseEnd t nightMinutes =
  Some (nightMinutes + nightCount t end_ pauseStart pauseEnd).
Proof.
  induction fuel as [|fuel IH]; intros end_ ps pe t acc Hfuel.
  - cbn [nightLoop]. destruct (Z.ltb_spec t end_) as [Hlt|Hge]; [lia|].
    rewrite nightCount_nil by lia. f_equal; lia.
  - cbn [nightLoop]. destruct (Z.ltb_spec t end_) as [Hlt|Hge].
    + rewrite (nightCount_cons t end_) by assumption.
      unfold inWindow, isNightMinute.
      destruct ((ps <=? t) && (t <? pe)); cbn [negb andb].
      * rewrite IH by lia. f_equal; lia.
      * destruct ((Z.rem t 1440 <? 360) || (1200 <=? Z.rem t 1440));
          rewrite IH by lia; f_equal; lia.
    + rewrite nightCount_nil by lia. f_equal; lia.
Qed.

(** [calcNightMinutes] in terms of the count. *)
Lemma calcNightMinutes_count start end_ pauseMin :
  calcNightMinutes start end_ pauseMin =
  Some (if shiftLength start end_ <=? 0 then 0
        else nightCount start (adjustedEnd start end_)
               (pauseStartOf start end_ pauseMin) (pauseEndOf start end_ pauseMin)).
Proof.
  unfold calcNightMinutes, pauseEndOf, pauseStartOf, shiftLength, adjustedEnd.
  destruct (end_ <? start);
    (match goal with |- context [?d <=? 0] => destruct (d <=? 0) end;
     [reflexivity | rewrite nightLoop_count by lia; f_equal; lia]).
Qed.

Lemma nightCount_bounds a b lo hi :
  0 <= nightCount a b lo hi <= Z.max 0 (b - a).
Proof.
  unfold nightCount. split; [lia|].
  pose proof (filter_length_le
    (fun t => negb (inWindow lo hi t) && isNightMinute t) (minutesOf a b)) as H.
  unfold minutesOf in H at 2. rewrite zrange_length in H. lia.
Qed.

(** Only the part of the window inside [[a, b)] matters to the count. *)
Lemma nightCount_clamp a b lo hi :
  nightCount a b lo hi = nightCount a b (Z.max lo a) (Z.min hi b).
Proof.
  unfold nightCount. do 2 f_equal. apply filter_ext_in.
  intros t Ht. apply In_minutesOf in Ht. do 2 f_equal.
  unfold inWindow.
  destruct (Z.leb_spec lo t), (Z.ltb_spec t hi),
    (Z.leb_spec (Z.max lo a) t), (Z.ltb_spec t (Z.min hi b)); try reflexivity; lia.
Qed.

(** On minutes that are not negative the remainder of the host language
    is the minute of the day in the usual sense. *)
Lemma isNightMinute_mod t :
  0 <= t -> isNightMinute t = (t mod 1440 <? 360) || (1200 <=? t mod 1440).
Proof.
  intros H. unfold isNightMinute. rewrite Z.rem_mod_nonneg by lia. reflexivity.
Qed.

(** So, for a shift that starts at a minute that is not negative, the
    count is the same with the mathematical [mod]. *)
Lemma nightCount_mod a b lo hi :
  0 <= a ->
  nightCount a b lo hi =
  Z.of_nat (List.length
    (filter (fun t => negb (inWindow lo hi t)
                      && ((t mod 1440 <? 360) || (1200 <=? t mod 1440)))
            (minutesOf a b))).
Proof.
  intros Ha. unfold nightCount. do 2 f_equal. apply filter_ext_in.
  intros t Ht. apply In_minutesOf in Ht. rewrite isNightMinute_mod by lia.
  reflexivity.
Qed.

(** The examples of the specification. *)
Example night_shift_20_to_06 : calcNightMinutes 1200 360 0 = Some 600.
Proof. vm_compute. reflexivity. Qed.

Example day_shift_09_to_17 : calcNightMinutes 540 1020 60 = Some 0.
Proof. vm_compute. reflexivity. Qed.

Example empty_shift : calcNightMinutes 1320 1320 0 = Some 0.
Proof. reflexivity. Qed.

(** For clock values the wrap-adjusted length is not negative, and the
    night minutes are within it. *)
Lemma calcNightMinutes_le_length_of_clock_values start end_ pauseMin :
  0 <= start <= 1439 -> 0 <= end_ <= 1439 ->
  exists n, calcNightMinutes start end_ pauseMin = Some n
            /\ 0 <= n <= shiftLength start end_.
Proof.
  intros Hs He. rewrite calcNightMinutes_count. eexists; split; [reflexivity|].
  assert (0 <= shiftLength start end_) as Hlen
    by (unfold shiftLength, adjustedEnd; destruct (Z.ltb_spec end_ start); lia).
  destruct (Z.leb_spec (shiftLength start end_) 0) as [H|H]; [lia|].
  pose proof (nightCount_bounds start (adjustedEnd start end_)
    (pauseStartOf start end_ pauseMin) (pauseEndOf start end_ pauseMin)) as Hb.
  unfold shiftLength in *. lia.
Qed.

(** C1: [calcNightMinutes] follows the algorithm of the specification:
    for every start, end and pause it returns, and what it returns is 0
    when the wrap-adjusted length is not positive and otherwise the number
    of minutes [t] of the shift that are outside the pause placed at the
    midpoint and whose minute of the day is below 360 or at least 1200. *)
Theorem calcNightMinutes_follows_spec (start end_ pauseMin : Z) :
  calcNightMinutes start end_ pauseMin = Some (spec_nightMinutes start end_ pauseMin).
Proof. rewrite calcNightMinutes_count. reflexivity. Qed.

(** C4, as the code has it: the night minutes are never negative and
    never more than the wrap-adjusted length of the shift or 0, whichever
    is larger; so they are within the length whenever it is not
    negative. *)
Theorem calcNightMinutes_le_shiftLength (start end_ pauseMin : Z) :
  exists n, calcNightMinutes start end_ pauseMin = Some n
            /\ 0 <= n <= Z.max 0 (shiftLength start end_).
Proof.
  rewrite calcNightMinutes_count. eexists; split; [reflexivity|].
  destruct (Z.leb_spec (shiftLength start end_) 0) as [H|H]; [lia|].
  apply nightCount_bounds.
Qed.

(** C4, as stated, fails where the end plus a day is still before the
    start: from 1599 (what "25:99" parses to) to 0 the wrap-adjusted
    length is -159 and the result is 0. *)
Lemma calcNightMinutes_exceeds_negative_length :
  shiftLength 1599 0 = -159
  /\ calcNightMinutes 1599 0 0 = Some 0
  /\ ~ (forall start end_ pauseMin n,
          calcNightMinutes start end_ pauseMin = Some n ->
          n <= shiftLength start end_).
Proof.
  split; [reflexivity|]. split; [reflexivity|].
  intros H. specialize (H 1599 0 0 0 eq_refl). vm_compute in H. apply H. reflexivity.
Qed.

(** C5: the pause is clamped to the shift: the result is what the loop
    gives when the pause window is replaced by its intersection with the
    shift, that is the count of the night minutes of the shift outside
    that intersection; pause minutes before the start or from the
    adjusted end on change nothing. *)
Theorem calcNightMinutes_pause_clamped (start end_ pauseMin : Z) :
  let end' := adjustedEnd start end_ in
  let lo := Z.max (pauseStartOf start end_ pauseMin) start in
  let hi := Z.min (pauseEndOf start end_ pauseMin) end' in
  calcNightMinutes start end_ pauseMin =
    (if shiftLength start end_ <=? 0 then Some 0
     else nightLoop (Z.to_nat (shiftLength start end_)) end' lo hi start 0)
  /\ calcNightMinutes start end_ pauseMin =
     Some (if shiftLength start end_ <=? 0 then 0 else nightCount start end' lo hi).
Proof.
  cbv zeta. rewrite calcNightMinutes_count. split.
  - destruct (shiftLength start end_ <=? 0); [reflexivity|].
    unfold shiftLength. rewrite nightLoop_count by lia.
    rewrite <- nightCount_clamp. reflexivity.
  - rewrite <- nightCount_clamp. reflexivity.
Qed.

End NightMinutes.

(* ================================================================= *)
(** ** Results on parsing and formatting *)

Section ClockTime.

(** Checking a property on each integer of a range. *)
Lemma forallb_zrange (p : Z -> bool) a n :
  forallb p (zrange a n) = true ->
  forall x, a <= x < a + Z.of_nat n -> p x = true.
Proof.
  intros H x Hx. rewrite forallb_forall in H. apply H, In_zrange, Hx.
Qed.

Lemma number_eqb_eq x y : number_eqb x y = true -> x = y.
Proof.
  destruct x as [| | |[a c]], y as [| | |[b d]]; cbn; try congruence.
  rewrite andb_true_iff, Z.eqb_eq, Pos.eqb_eq. intros [-> ->]. reflexivity.
Qed.

(** A test that holds of each of 0, ..., 99, by running it on them. *)
Ltac check_below_100 test :=
  apply (forallb_zrange test 0 100); [vm_compute; reflexivity | lia].

(** Below 100, [toString] and [padStart] write the two digits. *)
Lemma padStart_toString x :
  0 <= x < 100 -> padStart 2 "0" (toString x) = twoDigits x.
Proof.
  intros Hx. apply String.eqb_eq.
  check_below_100 (fun x => String.eqb (padStart 2 "0" (toString x)) (twoDigits x)).
Qed.

(** [Number] reads two digits back. *)
Lemma StringToNumber_twoDigits x :
  0 <= x < 100 -> StringToNumber (twoDigits x) = ofZ x.
Proof.
  intros Hx. apply number_eqb_eq.
  check_below_100 (fun x => number_eqb (StringToNumber (twoDigits x)) (ofZ x)).
Qed.

Lemma twoDigits_no_colon x : 0 <= x < 100 -> hasColon (twoDigits x) = false.
Proof.
  intros Hx. apply negb_true_iff.
  check_below_100 (fun x => negb (hasColon (twoDigits x))).
Qed.

Lemma split_no_colon s : hasColon s = false -> split ":" s = [s].
Proof.
  induction s as [|c s IH]; [reflexivity|].
  cbn [hasColon split]. intros H. apply orb_false_iff in H as [Hc Hs].
  rewrite Hc, (IH Hs). reflexivity.
Qed.

Lemma split_field a b :
  hasColon a = false -> split ":" (a ++ String ":" b) = a :: split ":" b.
Proof.
  induction a as [|c a IH]; intros H.
  - reflexivity.
  - cbn [hasColon] in H. apply orb_false_iff in H as [Hc Ha].
    cbn [append split]. rewrite Hc, (IH Ha). reflexivity.
Qed.

(** Integers add and multiply exactly. *)
Lemma mul_add_ofZ h k m : add (mul (ofZ h) (ofZ k)) (ofZ m) = ofZ (h * k + m).
Proof.
  unfold ofZ, mul, add, inject_Z, Qmult, Qplus. cbn [Qnum Qden Pos.mul].
  rewrite (Qcanon.Qred_identity (h * k # 1)) by apply Z.gcd_1_r.
  cbn [Qnum Qden Pos.mul]. rewrite Qcanon.Qred_identity by apply Z.gcd_1_r.
  do 2 f_equal. lia.
Qed.

(** What [parseTime] makes of two fields of two digits. *)
Lemma parseTime_twoDigits h m :
  0 <= h < 100 -> 0 <= m < 100 ->
  parseTime (twoDigits h ++ ":" ++ twoDigits m) = Return (ofZ (h * 60 + m)).
Proof.
  intros Hh Hm. unfold parseTime.
  change (":" ++ twoDigits m) with (String ":" (twoDigits m)).
  rewrite split_field by (apply twoDigits_no_colon; assumption).
  rewrite split_no_colon by (apply twoDigits_no_colon; assumption).
  cbn [index nth_error Number].
  rewrite !StringToNumber_twoDigits by assumption.
  cbn [ofZ isFinite negb orb]. fold (ofZ h) (ofZ 60) (ofZ m).
  rewrite mul_add_ofZ. reflexivity.
Qed.

(** The round trip, for every count of minutes whose hours take two
    digits. *)
Lemma parseTime_formatTime_below_6000 m :
  0 <= m < 6000 -> parseTime (formatTime m) = Return (ofZ m).
Proof.
  intros Hm. unfold formatTime.
  rewrite Z.rem_mod_nonneg by lia.
  assert (0 <= m / 60 < 100) as Hh
    by (split; [apply Z.div_pos; lia | apply Z.div_lt_upper_bound; lia]).
  pose proof (Z.mod_pos_bound m 60 ltac:(lia)) as Hr.
  rewrite !padStart_toString by lia.
  rewrite parseTime_twoDigits by lia.
  do 2 f_equal. pose proof (Z.div_mod m 60 ltac:(lia)). lia.
Qed.

Example formatTime_examples :
  formatTime 0 = "00:00" /\ formatTime 425 = "07:05" /\ formatTime 1439 = "23:59".
Proof. repeat split. Qed.

(** C3: parsing what [formatTime] writes for a minute of the day gives
    the minute back. *)
Theorem parseTime_formatTime (m : Z) :
  0 <= m <= 1439 -> parseTime (formatTime m) = Return (ofZ m).
Proof. intros Hm. apply parseTime_formatTime_below_6000. lia. Qed.

Lemma parseTime_formatTime_witness :
  0 <= 1234 <= 1439 /\ parseTime (formatTime 1234) = Return (ofZ 1234).
Proof. split; [lia | apply (parseTime_formatTime 1234); lia]. Defined.

(** C2, as the code has it: "bad" and the empty string are rejected with
    [InvalidFormat]; ":30" and "10:" are accepted, the empty field
    counting as 0, and give 30 and 600 minutes. *)
Theorem parseTime_malformed :
  parseTime "bad" = Throw InvalidFormat
  /\ parseTime "" = Throw InvalidFormat
  /\ parseTime ":30" = Return (ofZ 30)
  /\ parseTime "10:" = Return (ofZ 600).
Proof. repeat split; vm_compute; reflexivity. Qed.

(** C2, as stated, fails on ":30" and on "10:": [split] gives an empty
    field, [Number] of the empty string is 0, which is finite, and
    nothing is thrown. *)
Lemma parseTime_empty_field_accepted :
  split ":" ":30" = [""; "30"]
  /\ Number (Str "") = ofZ 0
  /\ parseTime ":30" <> Throw InvalidFormat
  /\ parseTime "10:" <> Throw InvalidFormat.
Proof. repeat split; try (vm_compute; reflexivity); vm_compute; discriminate. Qed.

(** C9: no range is checked: "25:99" is accepted and gives
    25 * 60 + 99 = 1599 minutes. *)
Theorem parseTime_no_range_check :
  parseTime "25:99" = Return (ofZ (25 * 60 + 99))
  /\ parseTime "25:99" = Return (ofZ 1599).
Proof. split; vm_compute; reflexivity. Qed.

End ClockTime.

(* ================================================================= *)
(** ** Results on the stored entry and on the summaries *)

Section Summaries.

(** Without a date the handler alerts and stores nothing, whatever the
    kind and the times. *)
Lemma submitEntry_without_date type startMin endMin pauseMin :
  submitEntry "" type startMin endMin pauseMin = Alerted "Please choose a date.".
Proof. reflexivity. Qed.

(** C6: for a normal day with a date chosen, the handler stores an entry,
    for every start, end and pause, and its worked minutes are
    [endMin - startMin - pauseMin], plus 1440 exactly when that difference
    is negative. *)
Theorem submitEntry_workedMinutes (date : string) (startMin endMin pauseMin : Z) :
  date <> "" ->
  exists entry,
    submitEntry date normal startMin endMin pauseMin = Upserted entry
    /\ ((endMin - startMin - pauseMin < 0
         /\ workedMinutes entry = endMin - startMin - pauseMin + 1440)
        \/ (0 <= endMin - startMin - pauseMin
            /\ workedMinutes entry = endMin - startMin - pauseMin)).
Proof.
  intros Hdate. unfold submitEntry.
  destruct (String.eqb_spec date ""); [contradiction|].
  rewrite calcNightMinutes_count.
  eexists; split; [reflexivity|]. cbn [workedMinutes].
  destruct (Z.ltb_spec (endMin - startMin - pauseMin) 0); [left|right]; lia.
Qed.

Lemma submitEntry_workedMinutes_witness :
  "2024-03-01" <> ""
  /\ exists entry,
       submitEntry "2024-03-01" normal 1320 360 30 = Upserted entry
       /\ ((360 - 1320 - 30 < 0 /\ workedMinutes entry = 360 - 1320 - 30 + 1440)
           \/ (0 <= 360 - 1320 - 30 /\ workedMinutes entry = 360 - 1320 - 30)).
Proof.
  assert ("2024-03-01" <> "") as H by discriminate.
  split; [exact H | apply (submitEntry_workedMinutes "2024-03-01" 1320 360 30 H)].
Defined.

Lemma vacationDaysIn_filter yearKey entries :
  Z.of_nat (List.length
    (filter (fun e => EntryType_eqb (type e) vacation) (yearEntries entries yearKey)))
  = vacationDaysIn yearKey entries.
Proof.
  unfold yearEntries. induction entries as [|e rest IH]; [reflexivity|].
  cbn [filter vacationDaysIn].
  destruct (string_dec (slice0 4 (date e)) yearKey) as [Heq|Hne].
  - apply String.eqb_eq in Heq. rewrite Heq. cbn [filter].
    destruct (type e); cbn [EntryType_eqb List.length]; lia.
  - apply String.eqb_neq in Hne. rewrite Hne.
    destruct (type e); exact IH.
Qed.

(** C7: the vacation days used are the vacation entries of the year, and
    the days left are [max(0, allowance - used)], never negative, for any
    allowance. *)
Theorem summarizeVacation_used_remaining
    (entries : list Entry) (yearKey : string) (allowance : Z) :
  let s := summarizeVacation entries yearKey allowance in
  vacUsedThisYear s = vacationDaysIn yearKey entries
  /\ remaining s = Z.max 0 (allowance - vacUsedThisYear s)
  /\ 0 <= remaining s.
Proof.
  cbv zeta. unfold summarizeVacation. cbn [vacUsedThisYear remaining].
  rewrite vacationDaysIn_filter. repeat split. lia.
Qed.

(** C8: with no entry, every sum and every count of the month is 0. *)
Theorem summarizeMonth_empty (monthKey : string) :
  summarizeMonth [] monthKey = mkMonthlySummary 0 0 0 0 0.
Proof. reflexivity. Qed.

Lemma kinds_partition (l : list Entry) :
  (List.length (filter (fun e => EntryType_eqb (type e) normal) l)
   + List.length (filter (fun e => EntryType_eqb (type e) vacation) l)
   + List.length (filter (fun e => EntryType_eqb (type e) sick) l)
   = List.length l)%nat.
Proof.
  induction l as [|e l IH]; [reflexivity|].
  cbn [filter]. destruct (type e); cbn [EntryType_eqb List.length]; lia.
Qed.

(** The entries [renderSummary] selects for a month are the entries whose
    date starts with the month key, no more and no fewer. *)
Lemma monthEntries_length entries monthKey :
  List.length (monthEntries entries monthKey) = entriesInMonth monthKey entries.
Proof.
  unfold monthEntries, slice0. induction entries as [|e rest IH]; [reflexivity|].
  cbn [filter entriesInMonth].
  destruct (string_dec (substring 0 7 (date e)) monthKey) as [Heq|Hne].
  - apply String.eqb_eq in Heq. rewrite Heq. cbn [List.length]. rewrite IH. reflexivity.
  - apply String.eqb_neq in Hne. rewrite Hne. exact IH.
Qed.

(** C10: each entry whose date falls in the month (its first seven
    characters are the month key) is counted under exactly one kind: the
    normal, vacation and sick days add up to the number of those
    entries. *)
Theorem summarizeMonth_days_total (entries : list Entry) (monthKey : string) :
  let s := summarizeMonth entries monthKey in
  (daysNormal s + daysVacation s + daysSick s
   = entriesInMonth monthKey entries)%nat.
Proof.
  cbv zeta. unfold summarizeMonth. cbn [daysNormal daysVacation daysSick].
  rewrite kinds_partition. apply monthEntries_length.
Qed.

End Summaries.

(* ================================================================= *)
(** ** Further results on the night bonus and the stored entry *)

Section NightBonusFurther.

Lemma zrange_app a n m :
  zrange a (n + m) = (zrange a n ++ zrange (a + Z.of_nat n) m)%list.
Proof.
  revert a; induction n as [|n IH]; intros a.
  - cbn. f_equal. lia.
  - cbn [Nat.add zrange app]. rewrite IH. do 3 f_equal. lia.
Qed.

Lemma minutesOf_split a c b :
  a <= c <= b -> minutesOf a b = (minutesOf a c ++ minutesOf c b)%list.
Proof.
  intros H. unfold minutesOf.
  replace (Z.to_nat (b - a)) with (Z.to_nat (c - a) + Z.to_nat (b - c))%nat by lia.
  rewrite zrange_app. do 2 f_equal. lia.
Qed.

Lemma minutesOf_length a b : Z.of_nat (List.length (minutesOf a b)) = Z.max 0 (b - a).
Proof. unfold minutesOf. rewrite zrange_length. lia. Qed.

Lemma filter_none {A} (f : A -> bool) l :
  (forall x, In x l -> f x = false) -> filter f l = [].
Proof.
  induction l as [|x l IH]; intros H; [reflexivity|].
  cbn [filter]. rewrite (H x (or_introl eq_refl)). apply IH.
  intros y Hy. apply H. right. exact Hy.
Qed.

Lemma filter_length_mono {A} (f g : A -> bool) l :
  (forall x, In x l -> f x = true -> g x = true) ->
  (List.length (filter f l) <= List.length (filter g l))%nat.
Proof.
  induction l as [|x l IH]; intros H; [reflexivity|].
  assert (IH' := IH (fun y Hy => H y (or_intror Hy))).
  cbn [filter]. pose proof (H x (or_introl eq_refl)) as Hx.
  destruct (f x), (g x); cbn [List.length];
    first [lia | discriminate (Hx eq_refl)].
Qed.

(** No minute counts when the shift has no night minute outside the
    window. *)
Lemma nightCount_zero a b lo hi :
  (forall t, a <= t < b -> inWindow lo hi t = true \/ isNightMinute t = false) ->
  nightCount a b lo hi = 0.
Proof.
  intros H. unfold nightCount. rewrite filter_none; [reflexivity|].
  intros t Ht. apply In_minutesOf in Ht. destruct (H t Ht) as [-> | ->].
  - reflexivity.
  - apply andb_false_r.
Qed.

(** Outside a window that lies in the shift there are as many minutes as
    the shift has, less the length of the window. *)
Lemma outside_window_count a b lo hi :
  a <= lo -> lo <= hi -> hi <= b ->
  Z.of_nat (List.length (filter (fun t => negb (inWindow lo hi t)) (minutesOf a b)))
  = (b - a) - (hi - lo).
Proof.
  intros Ha Hlh Hb.
  set (out := fun t => negb (inWindow lo hi t)).
  assert (filter out (minutesOf a lo) = minutesOf a lo) as Hbefore.
  { apply forallb_filter_id, forallb_forall. intros t Ht.
    apply In_minutesOf in Ht. unfold out, inWindow.
    destruct (Z.leb_spec lo t); [lia|]. reflexivity. }
  assert (filter out (minutesOf lo hi) = []) as Hin.
  { apply filter_none. intros t Ht. apply In_minutesOf in Ht.
    unfold out, inWindow.
    destruct (Z.leb_spec lo t), (Z.ltb_spec t hi); first [lia | reflexivity]. }
  assert (filter out (minutesOf hi b) = minutesOf hi b) as Hafter.
  { apply forallb_filter_id, forallb_forall. intros t Ht.
    apply In_minutesOf in Ht. unfold out, inWindow.
    destruct (Z.ltb_spec t hi); [lia|]. rewrite andb_false_r. reflexivity. }
  rewrite (minutesOf_split a lo b), (minutesOf_split lo hi b) by lia.
  rewrite !filter_app, Hbefore, Hin, Hafter. cbn [app].
  rewrite length_app, Nat2Z.inj_add, !minutesOf_length. lia.
Qed.

Lemma nightCount_le_outside a b lo hi :
  nightCount a b lo hi <=
  Z.of_nat (List.length (filter (fun t => negb (inWindow lo hi t)) (minutesOf a b))).
Proof.
  unfold nightCount. apply inj_le, filter_length_mono.
  intros t _ H. apply andb_true_iff in H. apply H.
Qed.

(** X1: a shift that lies between 06:00 and 20:00 of one day has no
    night minute, whatever the pause. *)
Theorem calcNightMinutes_day_shift (start end_ pauseMin : Z) :
  360 <= start -> start <= end_ -> end_ <= 1200 ->
  calcNightMinutes start end_ pauseMin = Some 0.
Proof.
  intros Hs Hse He. rewrite calcNightMinutes_count. f_equal.
  destruct (shiftLength start end_ <=? 0); [reflexivity|].
  apply nightCount_zero. intros t Ht. right.
  unfold adjustedEnd in Ht. destruct (Z.ltb_spec end_ start); [lia|].
  unfold isNightMinute. rewrite Z.rem_small by lia.
  destruct (Z.ltb_spec t 360), (Z.leb_spec 1200 t); first [lia | reflexivity].
Qed.

Lemma calcNightMinutes_day_shift_witness :
  (360 <= 540 /\ 540 <= 1020 /\ 1020 <= 1200)
  /\ calcNightMinutes 540 1020 45 = Some 0.
Proof. split; [lia | apply (calcNightMinutes_day_shift 540 1020 45); lia]. Defined.

(** X2: a pause never adds night minutes: the result is at most the
    result for the same shift without pause. *)
Theorem calcNightMinutes_pause_reduces (start end_ pauseMin : Z) :
  exists n n0,
    calcNightMinutes start end_ pauseMin = Some n
    /\ calcNightMinutes start end_ 0 = Some n0
    /\ n <= n0.
Proof.
  rewrite !calcNightMinutes_count. do 2 eexists. repeat split.
  destruct (shiftLength start end_ <=? 0); [lia|].
  unfold nightCount. apply inj_le, filter_length_mono.
  intros t _ H. apply andb_true_iff in H as [_ H]. rewrite H.
  unfold pauseEndOf, inWindow.
  destruct (Z.leb_spec (pauseStartOf start end_ 0) t),
    (Z.ltb_spec t (pauseStartOf start end_ 0 + 0)); first [lia | reflexivity].
Qed.

(** X3: with a date chosen, when the pause is not negative and not
    longer than the shift, the entry stored for a normal day has night
    minutes between 0 and its worked minutes. *)
Theorem submitEntry_night_le_worked (date : string) (startMin endMin pauseMin : Z) :
  date <> "" ->
  0 <= pauseMin <= shiftLength startMin endMin ->
  exists entry,
    submitEntry date normal startMin endMin pauseMin = Upserted entry
    /\ 0 <= nightMinutes entry <= workedMinutes entry.
Proof.
  intros Hdate Hp. unfold submitEntry.
  destruct (String.eqb_spec date ""); [contradiction|].
  rewrite calcNightMinutes_count.
  eexists; split; [reflexivity|]. cbn [nightMinutes workedMinutes].
  pose proof (nightCount_bounds startMin (adjustedEnd startMin endMin)
    (pauseStartOf startMin endMin pauseMin) (pauseEndOf startMin endMin pauseMin)) as Hb.
  pose proof (nightCount_le_outside startMin (adjustedEnd startMin endMin)
    (pauseStartOf startMin endMin pauseMin) (pauseEndOf startMin endMin pauseMin)) as Hn.
  destruct (Z.leb_spec (shiftLength startMin endMin) 0) as [H0|H0].
  - unfold shiftLength, adjustedEnd in *.
    destruct (Z.ltb_spec endMin startMin), (Z.ltb_spec (endMin - startMin - pauseMin) 0); lia.
  - set (T := shiftLength startMin endMin) in *.
    assert (adjustedEnd startMin endMin = startMin + T) as HT
      by (unfold T, shiftLength; lia).
    assert (startMin <= pauseStartOf startMin endMin pauseMin
            /\ pauseEndOf startMin endMin pauseMin <= startMin + T) as [Hlo Hhi]
      by (unfold pauseEndOf, pauseStartOf; fold T;
          Z.to_euclidean_division_equations; lia).
    rewrite HT in *.
    rewrite outside_window_count in Hn
      by (try assumption; unfold pauseEndOf; lia).
    unfold pauseEndOf in Hn.
    assert ((if endMin - startMin - pauseMin <? 0
             then endMin - startMin - pauseMin + 1440
             else endMin - startMin - pauseMin) = T - pauseMin) as ->.
    { unfold T, shiftLength, adjustedEnd in *.
      destruct (Z.ltb_spec endMin startMin),
        (Z.ltb_spec (endMin - startMin - pauseMin) 0); lia. }
    unfold pauseEndOf in *. lia.
Qed.

Lemma submitEntry_night_le_worked_witness :
  ("2024-03-01" <> "" /\ 0 <= 30 <= shiftLength 1320 360)
  /\ exists entry,
       submitEntry "2024-03-01" normal 1320 360 30 = Upserted entry
       /\ 0 <= nightMinutes entry <= workedMinutes entry.
Proof.
  assert ("2024-03-01" <> "") as Hd by discriminate.
  assert (0 <= 30 <= shiftLength 1320 360) as H by (vm_compute; split; discriminate).
  split; [exact (conj Hd H)
         | apply (submitEntry_night_le_worked "2024-03-01" 1320 360 30 Hd H)].
Defined.

(** X4: with a date chosen, when a shift that ends on the day it starts
    has a pause longer than itself, the handler stores a day added to the
    negative difference as worked minutes, and no night minute. *)
Theorem submitEntry_pause_longer_than_shift
    (date : string) (startMin endMin pauseMin : Z) :
  date <> "" ->
  startMin <= endMin -> endMin - startMin < pauseMin ->
  submitEntry date normal startMin endMin pauseMin =
  Upserted (mkEntry date normal (endMin - startMin - pauseMin + 1440) 0).
Proof.
  intros Hdate Hse Hp. unfold submitEntry.
  destruct (String.eqb_spec date ""); [contradiction|].
  rewrite calcNightMinutes_count.
  destruct (Z.ltb_spec (endMin - startMin - pauseMin) 0); [|lia].
  do 3 f_equal.
  destruct (Z.leb_spec (shiftLength startMin endMin) 0); [reflexivity|].
  apply nightCount_zero. intros t Ht. left.
  unfold inWindow, pauseEndOf, pauseStartOf, shiftLength, adjustedEnd in *.
  destruct (Z.ltb_spec endMin startMin); [lia|].
  apply andb_true_iff.
  split; [apply Z.leb_le | apply Z.ltb_lt];
    Z.to_euclidean_division_equations; lia.
Qed.

Lemma submitEntry_pause_longer_than_shift_witness :
  ("2024-03-01" <> "" /\ 1320 <= 1380 /\ 1380 - 1320 < 90)
  /\ submitEntry "2024-03-01" normal 1320 1380 90 =
     Upserted (mkEntry "2024-03-01" normal (1380 - 1320 - 90 + 1440) 0).
Proof.
  assert ("2024-03-01" <> "") as Hd by discriminate.
  split; [split; [exact Hd | lia]|].
  apply (submitEntry_pause_longer_than_shift "2024-03-01" 1320 1380 90 Hd); lia.
Defined.

End NightBonusFurther.

(* ================================================================= *)
(** ** Further results on [parseTime] *)

Section ParseTimeFurther.

(** X5: a text without a colon is always rejected: the minutes part is
    missing, and [Number(undefined)] is [NaN]. *)
Theorem parseTime_without_colon (str : string) :
  hasColon str = false -> parseTime str = Throw InvalidFormat.
Proof.
  intros H. unfold parseTime. rewrite (split_no_colon str H).
  cbn [index nth_error Number isFinite negb]. rewrite orb_true_r. reflexivity.
Qed.

Lemma parseTime_without_colon_witness :
  hasColon "1030" = false /\ parseTime "1030" = Throw InvalidFormat.
Proof. split; [reflexivity | apply (parseTime_without_colon "1030"); reflexivity]. Defined.

(** X6: only the first two fields are read: what follows a second colon
    (the seconds of [HH:MM:SS], say) changes nothing. *)
Theorem parseTime_ignores_third_field (a b c : string) :
  hasColon a = false -> hasColon b = false ->
  parseTime (a ++ ":" ++ b ++ ":" ++ c) = parseTime (a ++ ":" ++ b).
Proof.
  intros Ha Hb. unfold parseTime.
  change (a ++ ":" ++ b ++ ":" ++ c) with (a ++ String ":" (b ++ String ":" c)).
  change (a ++ ":" ++ b) with (a ++ String ":" b).
  rewrite !split_field by assumption. rewrite (split_no_colon b Hb).
  reflexivity.
Qed.

Lemma parseTime_ignores_third_field_witness :
  (hasColon "07" = false /\ hasColon "05" = false)
  /\ parseTime ("07" ++ ":" ++ "05" ++ ":" ++ "59") = parseTime ("07" ++ ":" ++ "05").
Proof.
  split; [split; reflexivity|].
  apply (parseTime_ignores_third_field "07" "05" "59"); reflexivity.
Defined.

End ParseTimeFurther.

(* ================================================================= *)
(** ** Results on the stored entries *)

Section StoredEntries.

Lemma findIndex_ge {A} (f : A -> bool) l : -1 <= findIndex f l.
Proof.
  induction l as [|x l IH]; cbn [findIndex]; [lia|].
  destruct (f x); [lia|]. destruct (Z.eqb_spec (findIndex f l) (-1)); lia.
Qed.

(** [saveEntry] is the upsert by date. *)
Lemma assign_findIndex entries entry :
  (let idx := findIndex (fun e => String.eqb (date e) (date entry)) entries in
   if negb (idx =? -1) then assign entries (Z.to_nat idx) entry
   else (entries ++ [entry])%list)
  = upsert entries entry.
Proof.
  cbv zeta. induction entries as [|e rest IH]; [reflexivity|].
  cbn [findIndex upsert]. destruct (String.eqb (date e) (date entry)); [reflexivity|].
  pose proof (findIndex_ge (fun e => String.eqb (date e) (date entry)) rest) as Hge.
  revert IH.
  destruct (Z.eqb_spec (findIndex (fun e => String.eqb (date e) (date entry)) rest) (-1))
    as [Heq|Hne]; cbn [negb].
  - cbn [Z.eqb negb app]. intros <-. reflexivity.
  - intros <-.
    destruct (Z.eqb_spec (findIndex (fun e => String.eqb (date e) (date entry)) rest + 1) (-1));
      [lia|]. cbn [negb].
    replace (Z.to_nat (findIndex (fun e => String.eqb (date e) (date entry)) rest + 1))
      with (S (Z.to_nat (findIndex (fun e => String.eqb (date e) (date entry)) rest)))
      by lia.
    reflexivity.
Qed.

Lemma loadEntries_saveEntry st entry :
  loadEntries (saveEntry st entry) = upsert (loadEntries st) entry.
Proof. unfold saveEntry. cbn [loadEntries entriesItem]. apply assign_findIndex. Qed.

Lemma find_upsert entries entry dateISO :
  find (fun e => String.eqb (date e) dateISO) (upsert entries entry)
  = if String.eqb dateISO (date entry) then Some entry
    else find (fun e => String.eqb (date e) dateISO) entries.
Proof.
  induction entries as [|e rest IH]; cbn [upsert find].
  - rewrite (String.eqb_sym (date entry)). destruct (String.eqb dateISO (date entry)); reflexivity.
  - destruct (String.eqb_spec (date e) (date entry)) as [Heq|Hne]; cbn [find].
    + rewrite Heq, (String.eqb_sym (date entry)).
      destruct (String.eqb dateISO (date entry)); reflexivity.
    + rewrite IH. destruct (String.eqb_spec (date e) dateISO) as [Hd|Hd]; [|reflexivity].
      destruct (String.eqb_spec dateISO (date entry)); [congruence | reflexivity].
Qed.

(** X7: looking a date up after [saveEntry]: the saved entry for its own
    date, and for any other date what was there before. *)
Theorem findEntry_saveEntry (st : Storage) (entry : Entry) (dateISO : string) :
  findEntry (saveEntry st entry) dateISO
  = if String.eqb dateISO (date entry) then Some entry else findEntry st dateISO.
Proof. unfold findEntry. rewrite loadEntries_saveEntry. apply find_upsert. Qed.

Lemma In_dates_upsert entries entry d :
  In d (map date (upsert entries entry)) <-> In d (map date entries) \/ d = date entry.
Proof.
  induction entries as [|e rest IH]; cbn [upsert map In].
  - intuition.
  - destruct (String.eqb_spec (date e) (date entry)) as [Heq|Hne]; cbn [map In].
    + rewrite Heq. intuition.
    + rewrite IH. intuition.
Qed.

Lemma uniqueDates_upsert entries entry :
  uniqueDates entries -> uniqueDates (upsert entries entry).
Proof.
  unfold uniqueDates. induction entries as [|e rest IH]; cbn [upsert map]; intros H.
  - constructor; [intros []| constructor].
  - inversion H as [|? ? Hnotin Hrest]; subst.
    destruct (String.eqb_spec (date e) (date entry)) as [Heq|Hne]; cbn [map].
    + constructor; [rewrite <- Heq|]; assumption.
    + constructor; [|apply IH, Hrest].
      rewrite In_dates_upsert. intros [Hin|Heq]; [exact (Hnotin Hin) | exact (Hne Heq)].
Qed.

(** X8: [saveEntry] keeps the dates of the stored entries distinct. *)
Theorem saveEntry_keeps_dates_unique (st : Storage) (entry : Entry) :
  uniqueDates (loadEntries st) -> uniqueDates (loadEntries (saveEntry st entry)).
Proof. rewrite loadEntries_saveEntry. apply uniqueDates_upsert. Qed.

Lemma saveEntry_keeps_dates_unique_witness :
  let st := mkStorage (Some [mkEntry "2024-03-01" normal 480 0]) None in
  uniqueDates (loadEntries st)
  /\ uniqueDates (loadEntries (saveEntry st (mkEntry "2024-03-01" sick 480 0))).
Proof.
  cbv zeta.
  assert (uniqueDates (loadEntries (mkStorage (Some [mkEntry "2024-03-01" normal 480 0]) None)))
    as H by (repeat constructor; intros []).
  split; [exact H | apply (saveEntry_keeps_dates_unique _ _ H)].
Defined.

(** X9: [saveEntry] adds one entry when the date is new and none when
    the date is already stored. *)
Theorem saveEntry_length (st : Storage) (entry : Entry) :
  List.length (loadEntries (saveEntry st entry))
  = (List.length (loadEntries st)
     + (if existsb (fun e => String.eqb (date e) (date entry)) (loadEntries st)
        then 0 else 1))%nat.
Proof.
  rewrite loadEntries_saveEntry.
  induction (loadEntries st) as [|e rest IH]; cbn [upsert existsb]; [reflexivity|].
  destruct (String.eqb (date e) (date entry)); cbn [orb List.length]; [lia|].
  rewrite IH. lia.
Qed.

Lemma upsert_upsert entries e1 e2 :
  date e1 = date e2 -> upsert (upsert entries e1) e2 = upsert entries e2.
Proof.
  intros Hd. induction entries as [|e rest IH]; cbn [upsert].
  - rewrite Hd, String.eqb_refl. reflexivity.
  - rewrite Hd. destruct (String.eqb (date e) (date e2)) eqn:He; cbn [upsert].
    + rewrite Hd, String.eqb_refl. reflexivity.
    + rewrite He, IH. reflexivity.
Qed.

(** X10: saving twice for one date is saving the second entry: the last
    submission of a day replaces the one before. *)
Theorem saveEntry_overwrites (st : Storage) (e1 e2 : Entry) :
  date e1 = date e2 ->
  loadEntries (saveEntry (saveEntry st e1) e2) = loadEntries (saveEntry st e2).
Proof. intros H. rewrite !loadEntries_saveEntry. apply upsert_upsert, H. Qed.

Lemma saveEntry_overwrites_witness :
  let st := mkStorage None None in
  let e1 := mkEntry "2024-03-01" normal 450 0 in
  let e2 := mkEntry "2024-03-01" vacation 480 0 in
  date e1 = date e2
  /\ loadEntries (saveEntry (saveEntry st e1) e2) = loadEntries (saveEntry st e2).
Proof.
  cbv zeta. split; [reflexivity|].
  apply (saveEntry_overwrites (mkStorage None None)
           (mkEntry "2024-03-01" normal 450 0) (mkEntry "2024-03-01" vacation 480 0)).
  reflexivity.
Defined.

(** X11: after the delete button, no entry of that date is left, and the
    entries of every other date are the ones there were: an entry is
    stored afterwards exactly if it was stored and has another date, and
    a lookup finds nothing for the deleted date and what it found before
    for any other. *)
Theorem deleteEntry_removes_date (st : Storage) (dateISO : string) :
  (forall e, In e (loadEntries (deleteEntry st dateISO)) <->
             In e (loadEntries st) /\ date e <> dateISO)
  /\ forall d, findEntry (deleteEntry st dateISO) d
               = if String.eqb d dateISO then None else findEntry st d.
Proof.
  unfold findEntry, deleteEntry. cbn [loadEntries entriesItem]. split.
  - intros e. rewrite filter_In, negb_true_iff, String.eqb_neq. reflexivity.
  - intros d. induction (loadEntries st) as [|e rest IH]; cbn [filter find].
    + destruct (String.eqb d dateISO); reflexivity.
    + destruct (String.eqb_spec (date e) dateISO) as [He|He]; cbn [negb find].
      * rewrite IH. destruct (String.eqb_spec (date e) d) as [Hd|Hd]; [|reflexivity].
        destruct (String.eqb_spec d dateISO); [reflexivity | congruence].
      * rewrite IH. destruct (String.eqb_spec (date e) d) as [Hd|Hd]; [|reflexivity].
        destruct (String.eqb_spec d dateISO); [congruence | reflexivity].
Qed.

Lemma find_none_filter entries dateISO :
  find (fun e => String.eqb (date e) dateISO) entries = None ->
  filter (fun e => negb (String.eqb (date e) dateISO)) entries = entries.
Proof.
  induction entries as [|e rest IH]; cbn [find filter]; [reflexivity|].
  destruct (String.eqb (date e) dateISO); [discriminate|].
  intros H. cbn [negb]. rewrite (IH H). reflexivity.
Qed.

(** X12: saving an entry for a date that was not stored and deleting that
    date again gives the entries there were. *)
Theorem deleteEntry_saveEntry (st : Storage) (entry : Entry) :
  findEntry st (date entry) = None ->
  loadEntries (deleteEntry (saveEntry st entry) (date entry)) = loadEntries st.
Proof.
  unfold findEntry. intros Hnone.
  unfold deleteEntry at 1. cbn [loadEntries entriesItem].
  change (match entriesItem (saveEntry st entry) with Some data => data | None => [] end)
    with (loadEntries (saveEntry st entry)).
  rewrite loadEntries_saveEntry.
  induction (loadEntries st) as [|e rest IH]; cbn [upsert filter find] in *.
  - rewrite String.eqb_refl. reflexivity.
  - destruct (String.eqb (date e) (date entry)) eqn:He; [discriminate|].
    cbn [filter]. rewrite He. cbn [negb]. rewrite (IH Hnone). reflexivity.
Qed.

Lemma deleteEntry_saveEntry_witness :
  let st := mkStorage (Some [mkEntry "2024-03-01" normal 480 0]) None in
  let entry := mkEntry "2024-03-02" vacation 480 0 in
  findEntry st (date entry) = None
  /\ loadEntries (deleteEntry (saveEntry st entry) (date entry)) = loadEntries st.
Proof.
  cbv zeta. split; [reflexivity|].
  apply (deleteEntry_saveEntry
           (mkStorage (Some [mkEntry "2024-03-01" normal 480 0]) None)
           (mkEntry "2024-03-02" vacation 480 0)).
  reflexivity.
Defined.

Lemma fold_map_unique entries : forall (m : string -> option Entry) key,
  uniqueDates entries ->
  fold_left
    (fun map e => fun key => if String.eqb key (date e) then Some e else map key)
    entries m key
  = match find (fun e => String.eqb (date e) key) entries with
    | Some e => Some e
    | None => m key
    end.
Proof.
  unfold uniqueDates.
  induction entries as [|e rest IH]; intros m key H; cbn [fold_left find map] in *.
  - reflexivity.
  - inversion H as [|? ? Hnotin Hrest]; subst. rewrite (IH _ _ Hrest).
    rewrite (String.eqb_sym key).
    destruct (String.eqb_spec (date e) key) as [Heq|Hne]; [|reflexivity].
    destruct (find (fun e0 => String.eqb (date e0) key) rest) as [e'|] eqn:Hf;
      [|reflexivity].
    apply find_some in Hf as [Hin Hd]. apply String.eqb_eq in Hd.
    exfalso. apply Hnotin. rewrite Heq, <- Hd. apply in_map, Hin.
Qed.

(** X13: while the dates are distinct, the map the calendar reads and
    the lookup the drawer makes give the same entry for every date. *)
Theorem entryMapByDate_findEntry (st : Storage) (dateISO : string) :
  uniqueDates (loadEntries st) ->
  entryMapByDate st dateISO = findEntry st dateISO.
Proof.
  intros H. unfold entryMapByDate, findEntry. rewrite fold_map_unique by exact H.
  destruct (find _ _); reflexivity.
Qed.

Lemma entryMapByDate_findEntry_witness :
  let st := mkStorage (Some [mkEntry "2024-03-01" normal 480 0;
                             mkEntry "2024-03-02" sick 480 0]) None in
  uniqueDates (loadEntries st)
  /\ entryMapByDate st "2024-03-02" = findEntry st "2024-03-02".
Proof.
  cbv zeta.
  assert (uniqueDates (loadEntries
            (mkStorage (Some [mkEntry "2024-03-01" normal 480 0;
                              mkEntry "2024-03-02" sick 480 0]) None))) as H.
  { repeat constructor; cbn; intuition discriminate. }
  split; [exact H | apply (entryMapByDate_findEntry _ "2024-03-02" H)].
Defined.

End StoredEntries.

(* ================================================================= *)
(** ** Results on the vacation allowance *)

Section Allowance.

Lemma Qred_inject_Z z : Qred (inject_Z z) = inject_Z z.
Proof. apply Qcanon.Qred_identity. apply Z.gcd_1_r. Qed.

Lemma negate_ofZ z : negate (ofZ z) = ofZ (- z).
Proof.
  unfold negate, ofZ. f_equal.
  change (- inject_Z z)%Q with (inject_Z (- z)). apply Qred_inject_Z.
Qed.

Lemma roundMV_integer z :
  roundMV (inject_Z z) = PosInfinity \/ roundMV (inject_Z z) = ofZ z.
Proof. unfold roundMV. destruct (overflows (inject_Z z)); [left|right]; reflexivity. Qed.

(** [parseInt] gives [NaN], an infinity or an integer. *)
Lemma parseInt_integer s :
  isFinite (parseInt s) = true -> exists z, parseInt s = ofZ z.
Proof.
  unfold parseInt.
  destruct (match dropWhile isStrWhiteSpaceChar (list_ascii_of_string s) with
            | [] => _ | _ :: _ => _ end) as [negative S1].
  destruct (match S1 with [] => _ | _ :: _ => _ end) as [R S2].
  destruct (fst (spanDigits R S2)) as [|d ds]; [discriminate|].
  destruct (roundMV_integer (digitsValue R (d :: ds))) as [-> | ->].
  - destruct negative; discriminate.
  - destruct negative; intros _; [rewrite negate_ofZ|]; eexists; reflexivity.
Qed.

(** X14: [loadAllowance] always gives an integer, never [NaN] or an
    infinity, whatever text is stored. *)
Theorem loadAllowance_integer (st : Storage) :
  exists z, loadAllowance st = ofZ z.
Proof.
  unfold loadAllowance.
  destruct (vacAllowanceItem st) as [raw|]; [|exists 30; reflexivity].
  destruct (String.eqb raw ""); [exists 30; reflexivity|].
  destruct (isFinite (parseInt raw)) eqn:Hfin; [|exists 30; reflexivity].
  apply parseInt_integer, Hfin.
Qed.

Lemma digitValue_decimal c d :
  digitValue 10 c = Some d -> 48 <= code c <= 57 /\ d = code c - 48.
Proof.
  unfold digitValue. set (n := code c).
  destruct (Z.leb_spec 48 n), (Z.leb_spec n 57), (Z.leb_spec 97 n),
    (Z.leb_spec n 102), (Z.leb_spec 65 n), (Z.leb_spec n 70); cbn [andb];
    try lia;
    match goal with |- context [?v <? 10] => destruct (Z.ltb_spec v 10) end;
    try discriminate; intros [= <-]; lia.
Qed.

Lemma code_digit d : 0 <= d < 10 -> code (ascii_of_N (Z.to_N (48 + d))) = 48 + d.
Proof.
  intros H. unfold code. rewrite N_ascii_embedding by lia. lia.
Qed.

Lemma digitValue_digit d :
  0 <= d < 10 -> digitValue 10 (ascii_of_N (Z.to_N (48 + d))) = Some d.
Proof.
  intros H. unfold digitValue. rewrite code_digit by assumption.
  destruct (Z.leb_spec 48 (48 + d)), (Z.leb_spec (48 + d) 57); try lia.
  cbn [andb]. destruct (Z.ltb_spec (48 + d - 48) 10); [f_equal; lia | lia].
Qed.

Lemma spanDigits_digit d acc :
  0 <= d < 10 ->
  spanDigits 10 (ascii_of_N (Z.to_N (48 + d)) :: acc)
  = (d :: fst (spanDigits 10 acc), snd (spanDigits 10 acc)).
Proof.
  intros H. cbn [spanDigits]. rewrite digitValue_digit by assumption.
  destruct (spanDigits 10 acc). reflexivity.
Qed.

(** What [toString] writes is read back, digit by digit. *)
Lemma spanDigits_digitsOf fuel : forall n acc,
  0 <= n < 2 ^ (Z.of_nat fuel + 1) ->
  exists ds,
    ds <> []
    /\ spanDigits 10 (digitsOf fuel n acc)
       = ((ds ++ fst (spanDigits 10 acc))%list, snd (spanDigits 10 acc))
    /\ forall k, fold_left (fun a d => 10 * a + d) ds k
                 = k * 10 ^ Z.of_nat (List.length ds) + n.
Proof.
  assert (forall n acc, 0 <= n < 10 ->
            exists ds, ds <> []
              /\ spanDigits 10 (ascii_of_N (Z.to_N (48 + n mod 10)) :: acc)
                 = ((ds ++ fst (spanDigits 10 acc))%list, snd (spanDigits 10 acc))
              /\ forall k, fold_left (fun a d => 10 * a + d) ds k
                           = k * 10 ^ Z.of_nat (List.length ds) + n) as Hone.
  { intros n acc Hn. exists [n]. rewrite Z.mod_small by lia.
    split; [discriminate|]. split; [apply spanDigits_digit, Hn|].
    intros k. cbn [fold_left List.length]. change (Z.of_nat 1) with 1.
    rewrite Z.pow_1_r. lia. }
  induction fuel as [|fuel IH]; intros n acc Hn.
  - cbn [digitsOf]. apply Hone. change (2 ^ (Z.of_nat 0 + 1)) with 2 in Hn. lia.
  - cbn [digitsOf]. destruct (Z.ltb_spec n 10) as [Hlt|Hge]; [apply Hone; lia|].
    assert (0 <= n / 10 < 2 ^ (Z.of_nat fuel + 1)) as Hdiv.
    { split; [apply Z.div_pos; lia|].
      apply Z.div_lt_upper_bound; [lia|].
      replace (Z.of_nat (S fuel) + 1) with (Z.succ (Z.of_nat fuel + 1)) in Hn by lia.
      rewrite Z.pow_succ_r in Hn by lia. lia. }
    destruct (IH (n / 10) (ascii_of_N (Z.to_N (48 + n mod 10)) :: acc) Hdiv)
      as (ds & Hne & Hspan & Hval).
    pose proof (Z.mod_pos_bound n 10 ltac:(lia)) as Hmod.
    exists (ds ++ [n mod 10])%list. split; [|split].
    + destruct ds; discriminate.
    + rewrite Hspan, spanDigits_digit by assumption.
      cbn [fst snd]. rewrite <- app_assoc. reflexivity.
    + intros k. rewrite fold_left_app, Hval. cbn [fold_left].
      rewrite length_app, Nat2Z.inj_add. cbn [List.length].
      change (Z.of_nat 1) with 1. rewrite Z.pow_add_r, Z.pow_1_r by lia.
      pose proof (Z.div_mod n 10 ltac:(lia)). lia.
Qed.

(** The characters of a text that is digits to its end. *)
Lemma spanDigits_all cs : forall ds,
  spanDigits 10 cs = (ds, []) -> Forall (fun c => 48 <= code c <= 57) cs.
Proof.
  induction cs as [|c cs IH]; intros ds H; [constructor|].
  cbn [spanDigits] in H. destruct (digitValue 10 c) as [d|] eqn:Hd; [|discriminate].
  destruct (spanDigits 10 cs) as [ds' rest] eqn:Hspan.
  injection H as _ Hrest. subst rest.
  constructor; [apply (digitValue_decimal c d Hd) | apply (IH ds' eq_refl)].
Qed.

(** [parseInt] on a text of digits, with or without a minus sign. *)
Lemma parseInt_digits (negative : bool) cs ds :
  ds <> [] -> spanDigits 10 cs = (ds, []) ->
  parseInt (string_of_list_ascii (if negative then "-"%char :: cs else cs))
  = (let v := roundMV (inject_Z (digitsValue 10 ds)) in
     if negative then negate v else v).
Proof.
  intros Hne Hspan. pose proof (spanDigits_all cs ds Hspan) as Hall.
  unfold parseInt. rewrite list_ascii_of_string_of_list_ascii.
  assert (dropWhile isStrWhiteSpaceChar cs = cs
          /\ (match cs with
              | c :: r => if code c =? 45 then (true, r)
                          else if code c =? 43 then (false, r) else (false, cs)
              | [] => (false, cs)
              end) = (false, cs)
          /\ (match cs with
              | z :: x :: r =>
                  if (code z =? 48) && ((code x =? 120) || (code x =? 88))
                  then (16, r) else (10, cs)
              | _ => (10, cs)
              end) = (10, cs)) as (Hdrop & Hsign & Hradix).
  { destruct Hall as [|c0 cs0 Hc0 Hrest]; [repeat split|].
    repeat split.
    - cbn [dropWhile]. unfold isStrWhiteSpaceChar.
      destruct (Z.leb_spec 9 (code c0)), (Z.leb_spec (code c0) 13),
        (Z.eqb_spec (code c0) 32), (Z.eqb_spec (code c0) 160); first [lia | reflexivity].
    - destruct (Z.eqb_spec (code c0) 45), (Z.eqb_spec (code c0) 43);
        first [lia | reflexivity].
    - destruct Hrest as [|c1 cs1 Hc1 _]; [reflexivity|].
      destruct (Z.eqb_spec (code c1) 120), (Z.eqb_spec (code c1) 88);
        first [lia | rewrite andb_false_r; reflexivity]. }
  destruct negative.
  - cbn [dropWhile]. change (isStrWhiteSpaceChar "-") with false. cbv iota.
    change (code "-" =? 45) with true. cbv iota.
    rewrite Hradix, Hspan. cbn [fst]. destruct ds; [contradiction|reflexivity].
  - rewrite Hdrop, Hsign, Hradix, Hspan. cbn [fst].
    destruct ds; [contradiction|reflexivity].
Qed.

Lemma no_overflow_below_1e21 z :
  - 10 ^ 21 < z < 10 ^ 21 -> roundMV (inject_Z z) = ofZ z.
Proof.
  intros H. unfold roundMV, overflows, Qle_bool, inject_Z, Qabs.
  cbn [Qnum Qden].
  assert (10 ^ 21 < 2 ^ 1024 - 2 ^ 970) as Hbig by (vm_compute; reflexivity).
  destruct (Z.leb_spec ((2 ^ 1024 - 2 ^ 970) * 1) (Z.abs z * 1)); [lia|reflexivity].
Qed.

Lemma toString_nonneg_digits n :
  0 <= n ->
  exists cs ds,
    toString n = string_of_list_ascii cs
    /\ ds <> [] /\ spanDigits 10 cs = (ds, []) /\ digitsValue 10 ds = n.
Proof.
  intros Hn. unfold toString. destruct (Z.ltb_spec n 0); [lia|].
  assert (0 <= n < 2 ^ (Z.of_nat (Z.to_nat (Z.log2 n)) + 1)) as Hfuel.
  { rewrite Z2Nat.id by apply Z.log2_nonneg.
    destruct (Z.eq_dec n 0) as [->|]; [cbn; lia|].
    pose proof (Z.log2_spec n ltac:(lia)). unfold Z.succ in *. lia. }
  destruct (spanDigits_digitsOf _ n [] Hfuel) as (ds & Hne & Hspan & Hval).
  exists (digitsOf (Z.to_nat (Z.log2 n)) n []), ds.
  cbn [spanDigits fst snd] in Hspan. rewrite app_nil_r in Hspan.
  repeat split; try assumption.
  unfold digitsValue. rewrite Hval. lia.
Qed.

(** [parseInt] reads back what [toString] writes. *)
Lemma parseInt_toString n :
  - 10 ^ 21 < n < 10 ^ 21 -> parseInt (toString n) = ofZ n.
Proof.
  intros Hn. destruct (Z.ltb_spec n 0) as [Hneg|Hpos].
  - destruct (toString_nonneg_digits (- n) ltac:(lia)) as (cs & ds & Hs & Hne & Hspan & Hval).
    assert (toString n = string_of_list_ascii ("-"%char :: cs)) as ->.
    { unfold toString in *. destruct (Z.ltb_spec n 0); [|lia].
      destruct (Z.ltb_spec (- n) 0); [lia|]. cbn [string_of_list_ascii]. f_equal. exact Hs. }
    rewrite (parseInt_digits true cs ds Hne Hspan). cbv zeta.
    rewrite Hval, no_overflow_below_1e21 by lia. rewrite negate_ofZ. f_equal. lia.
  - destruct (toString_nonneg_digits n Hpos) as (cs & ds & Hs & Hne & Hspan & Hval).
    rewrite Hs, (parseInt_digits false cs ds Hne Hspan). cbv zeta.
    rewrite Hval. apply no_overflow_below_1e21, Hn.
Qed.

Lemma toString_not_empty n : String.eqb (toString n) "" = false.
Proof.
  assert (forall fuel m acc, digitsOf fuel m acc <> []) as Hd.
  { induction fuel as [|fuel IH]; intros m acc; cbn [digitsOf]; [discriminate|].
    destruct (m <? 10); [discriminate | apply IH]. }
  unfold toString. destruct (n <? 0); [reflexivity|].
  destruct (digitsOf _ n []) eqn:H; [exact (False_ind _ (Hd _ _ _ H)) | reflexivity].
Qed.

(** X15: the allowance that [saveAllowance] stores is the one
    [loadAllowance] gives back, for every integer of magnitude up to
    [2^53], zero included. *)
Theorem loadAllowance_saveAllowance (st : Storage) (n : Z) :
  - 2 ^ 53 <= n <= 2 ^ 53 -> loadAllowance (saveAllowance st n) = ofZ n.
Proof.
  intros Hn. unfold loadAllowance, saveAllowance. cbn [vacAllowanceItem].
  assert (2 ^ 53 < 10 ^ 21) as Hbound by reflexivity.
  rewrite toString_not_empty, parseInt_toString by lia. reflexivity.
Qed.

Lemma loadAllowance_saveAllowance_witness :
  - 2 ^ 53 <= 25 <= 2 ^ 53
  /\ loadAllowance (saveAllowance (mkStorage None None) 25) = ofZ 25.
Proof.
  assert (- 2 ^ 53 <= 25 <= 2 ^ 53) as H by (vm_compute; split; discriminate).
  split; [exact H | apply (loadAllowance_saveAllowance (mkStorage None None) 25 H)].
Defined.

End Allowance.

(* ================================================================= *)
(** ** Results on the month navigation and the calendar grid *)

Section Calendar.

(** X16: whatever it is given, [shiftMonth] answers a month from 1 to 12
    and a year at most one away from the year it got. *)
Theorem shiftMonth_in_range (year month delta : Z) :
  1 <= snd (shiftMonth year month delta) <= 12
  /\ year - 1 <= fst (shiftMonth year month delta) <= year + 1.
Proof.
  unfold shiftMonth.
  destruct (Z.leb_spec (month + delta) 0); cbn [fst snd].
  - destruct (Z.ltb_spec 12 12); [lia|]. cbn [fst snd]. lia.
  - destruct (Z.ltb_spec 12 (month + delta)); cbn [fst snd]; lia.
Qed.

(** X17: from a month of the year, one step back or forth (or none)
    moves by exactly that many months: counted in months since year 0,
    the answer is the month given plus the step. *)
Theorem shiftMonth_step (year month delta : Z) :
  1 <= month <= 12 -> -1 <= delta <= 1 ->
  12 * fst (shiftMonth year month delta) + snd (shiftMonth year month delta)
  = 12 * year + month + delta.
Proof.
  intros Hm Hd. unfold shiftMonth.
  destruct (Z.leb_spec (month + delta) 0); cbn [fst snd].
  - destruct (Z.ltb_spec 12 12); [lia|]. cbn [fst snd]. lia.
  - destruct (Z.ltb_spec 12 (month + delta)); cbn [fst snd]; lia.
Qed.

Lemma shiftMonth_step_witness :
  (1 <= 1 <= 12 /\ -1 <= -1 <= 1)
  /\ 12 * fst (shiftMonth 2024 1 (-1)) + snd (shiftMonth 2024 1 (-1))
     = 12 * 2024 + 1 + -1.
Proof. split; [lia | apply (shiftMonth_step 2024 1 (-1)); lia]. Defined.

(** X18: the next-month button followed by the previous-month button
    comes back to the month it left, and the other way round. *)
Theorem shiftMonth_round_trip (year month : Z) :
  1 <= month <= 12 ->
  (let (y, m) := shiftMonth year month 1 in shiftMonth y m (-1)) = (year, month)
  /\ (let (y, m) := shiftMonth year month (-1) in shiftMonth y m 1) = (year, month).
Proof.
  intros Hm. unfold shiftMonth. split.
  - destruct (Z.leb_spec (month + 1) 0); [lia|].
    destruct (Z.ltb_spec 12 (month + 1)).
    + cbn. f_equal; lia.
    + destruct (Z.leb_spec (month + 1 + -1) 0); [lia|].
      destruct (Z.ltb_spec 12 (month + 1 + -1)); [lia|]. f_equal; lia.
  - destruct (Z.leb_spec (month + -1) 0).
    + cbn. f_equal; lia.
    + destruct (Z.ltb_spec 12 (month + -1)); [lia|].
      destruct (Z.leb_spec (month + -1 + 1) 0); [lia|].
      destruct (Z.ltb_spec 12 (month + -1 + 1)); [lia|]. f_equal; lia.
Qed.

Lemma shiftMonth_round_trip_witness :
  1 <= 12 <= 12
  /\ (let (y, m) := shiftMonth 2024 12 1 in shiftMonth y m (-1)) = (2024, 12)
  /\ (let (y, m) := shiftMonth 2024 12 (-1) in shiftMonth y m 1) = (2024, 12).
Proof. split; [lia | apply (shiftMonth_round_trip 2024 12); lia]. Defined.

(** The Monday-first index is a weekday index again, with Monday 0 and
    Sunday 6. *)
Lemma monFirstIndex_range d :
  0 <= d <= 6 -> 0 <= monFirstIndex d <= 6 /\ (monFirstIndex d + 1) mod 7 = d.
Proof.
  intros H. unfold monFirstIndex. rewrite Z.rem_mod_nonneg by lia.
  assert (d = 0 \/ d = 1 \/ d = 2 \/ d = 3 \/ d = 4 \/ d = 5 \/ d = 6) as Hd by lia.
  destruct Hd as [->|[->|[->|[->|[->|[->| ->]]]]]]; cbn; lia.
Qed.

Lemma trailingCells_spec leading days :
  0 <= leading -> 0 <= days ->
  0 <= trailingCells leading days <= 6
  /\ (leading + days + trailingCells leading days) mod 7 = 0.
Proof.
  intros Hl Hd. unfold trailingCells.
  rewrite (Z.rem_mod_nonneg (leading + days) 7) by lia.
  pose proof (Z.mod_pos_bound (leading + days) 7 ltac:(lia)) as Hb.
  rewrite Z.rem_mod_nonneg by lia.
  Z.to_euclidean_division_equations. lia.
Qed.

(** X19: the calendar is made of whole weeks: [renderCalendar] adds
    [leading + days + trailing] cells, at most 6 of them after the month,
    and their number is a multiple of 7. *)
Theorem calendarCells_whole_weeks (y m days leading prevDays : Z) :
  0 <= leading -> 0 <= days ->
  Z.of_nat (List.length (calendarCells y m days leading prevDays))
    = leading + days + trailingCells leading days
  /\ 0 <= trailingCells leading days <= 6
  /\ Z.of_nat (List.length (calendarCells y m days leading prevDays)) mod 7 = 0.
Proof.
  intros Hl Hd. pose proof (trailingCells_spec leading days Hl Hd) as [Ht Hmod].
  assert (Z.of_nat (List.length (calendarCells y m days leading prevDays))
          = leading + days + trailingCells leading days) as Hlen.
  { unfold calendarCells.
    rewrite !length_app, !length_map, length_rev, !zrange_length. lia. }
  rewrite Hlen. repeat split; lia.
Qed.

Lemma calendarCells_whole_weeks_witness :
  (0 <= 4 /\ 0 <= 31)
  /\ Z.of_nat (List.length (calendarCells 2024 3 31 4 29)) = 4 + 31 + trailingCells 4 31
  /\ 0 <= trailingCells 4 31 <= 6
  /\ Z.of_nat (List.length (calendarCells 2024 3 31 4 29)) mod 7 = 0.
Proof. split; [lia | apply (calendarCells_whole_weeks 2024 3 31 4 29); lia]. Defined.

Lemma filter_map_const {A B} (f : A -> B) (b : bool) (l : list A) :
  filter snd (map (fun x => (f x, b)) l) = if b then map (fun x => (f x, b)) l else [].
Proof. induction l as [|x l IH]; destruct b; cbn in *; congruence. Qed.

(** X20: the cells of the month are the days 1 to [days], each once and
    in order, between the cells of the neighbouring months. *)
Theorem calendarCells_in_month (y m days leading prevDays : Z) :
  map fst (filter snd (calendarCells y m days leading prevDays))
  = map (cellDate y m) (zrange 1 (Z.to_nat days)).
Proof.
  unfold calendarCells. rewrite !filter_app, !filter_map_const.
  cbn [app]. rewrite app_nil_r, map_map. reflexivity.
Qed.

End Calendar.

(* ================================================================= *)
(** ** Further results on the summaries *)

Section SummariesFurther.

Lemma fold_left_sum {A} (f : A -> Z) l : forall acc,
  fold_left (fun s e => s + f e) l acc = acc + fold_left (fun s e => s + f e) l 0.
Proof.
  induction l as [|x l IH]; intros acc; cbn [fold_left]; [lia|].
  rewrite (IH (acc + f x)), (IH (0 + f x)). lia.
Qed.

(** X21: the monthly summary of two collections put together is the sum
    of their summaries. *)
Theorem summarizeMonth_app (l1 l2 : list Entry) (monthKey : string) :
  summarizeMonth (l1 ++ l2) monthKey
  = addSummaries (summarizeMonth l1 monthKey) (summarizeMonth l2 monthKey).
Proof.
  unfold summarizeMonth, addSummaries, monthEntries.
  cbn [totalWorkedMonth totalNightMonth daysNormal daysVacation daysSick].
  rewrite !filter_app, !fold_left_app, !length_app.
  rewrite (fold_left_sum workedMinutes _ (fold_left _ _ 0)).
  rewrite (fold_left_sum nightMinutes _ (fold_left _ _ 0)).
  reflexivity.
Qed.

Lemma substring_prefix a b : substring 0 (String.length a) (a ++ b) = a.
Proof.
  induction a as [|c a IH]; cbn [String.length append substring].
  - destruct b; reflexivity.
  - rewrite IH. reflexivity.
Qed.

Lemma substring_substring n k s :
  (n <= k)%nat -> substring 0 n (substring 0 k s) = substring 0 n s.
Proof.
  revert k s. induction n as [|n IH]; intros k s H.
  - destruct (substring 0 k s), s; reflexivity.
  - destruct k as [|k]; [lia|]. destruct s as [|c s]; [reflexivity|].
    cbn [substring]. rewrite IH by lia. reflexivity.
Qed.

(** An entry of the month is an entry of the year, when the year is
    written with four characters. *)
Lemma month_in_year yearValue monthValue e :
  String.length yearValue = 4%nat ->
  String.eqb (slice0 7 (date e)) (yearValue ++ "-" ++ monthValue) = true ->
  String.eqb (slice0 4 (date e)) yearValue = true.
Proof.
  intros Hlen H. apply String.eqb_eq in H. apply String.eqb_eq.
  unfold slice0 in *.
  rewrite <- (substring_substring 4 7) by lia. rewrite H, <- Hlen.
  apply substring_prefix.
Qed.

(** X22: with a year of four characters in the picker, the vacation days
    that [renderSummary] shows for the month are at most the vacation
    days it shows as used in the year. *)
Theorem renderSummary_month_within_year
    (entries : list Entry) (yearValue monthValue : string) (allowance : Z) :
  String.length yearValue = 4%nat ->
  let (month, year) := renderSummary entries yearValue monthValue allowance in
  Z.of_nat (daysVacation month) <= vacUsedThisYear year.
Proof.
  intros Hlen. unfold renderSummary, summarizeMonth, summarizeVacation.
  cbn [daysVacation vacUsedThisYear]. apply inj_le.
  unfold monthEntries, yearEntries.
  induction entries as [|e rest IH]; [reflexivity|].
  cbn [filter].
  destruct (String.eqb (slice0 7 (date e)) (yearValue ++ "-" ++ monthValue)) eqn:Hm.
  - rewrite (month_in_year yearValue monthValue e Hlen Hm). cbn [filter].
    destruct (EntryType_eqb (type e) vacation); cbn [List.length]; lia.
  - destruct (String.eqb (slice0 4 (date e)) yearValue); [|exact IH].
    cbn [filter]. destruct (EntryType_eqb (type e) vacation); cbn [List.length]; lia.
Qed.

Lemma renderSummary_month_within_year_witness :
  String.length "2024" = 4%nat
  /\ let (month, year) :=
       renderSummary [mkEntry "2024-03-01" vacation 480 0;
                      mkEntry "2024-04-02" vacation 480 0] "2024" "03" 30 in
     Z.of_nat (daysVacation month) <= vacUsedThisYear year.
Proof.
  split; [reflexivity|].
  apply (renderSummary_month_within_year
           [mkEntry "2024-03-01" vacation 480 0; mkEntry "2024-04-02" vacation 480 0]
           "2024" "03" 30).
  reflexivity.
Defined.

Lemma substring_length_le n s : (String.length (substring 0 n s) <= n)%nat.
Proof.
  revert s. induction n as [|n IH]; intros s.
  - destruct s; cbn; lia.
  - destruct s as [|c s]; cbn [substring String.length]; [lia|].
    specialize (IH s). lia.
Qed.

(** X23: a month key of more than seven characters matches no entry: the
    monthly summary is then empty, whatever is stored. *)
Theorem summarizeMonth_long_key (entries : list Entry) (monthKey : string) :
  (7 < String.length monthKey)%nat ->
  summarizeMonth entries monthKey = mkMonthlySummary 0 0 0 0 0.
Proof.
  intros Hlen. unfold summarizeMonth.
  assert (monthEntries entries monthKey = []) as ->; [|reflexivity].
  unfold monthEntries. apply filter_none. intros e _.
  apply String.eqb_neq. intros Heq.
  pose proof (substring_length_le 7 (date e)) as Hle.
  unfold slice0 in Heq. rewrite Heq in Hle. lia.
Qed.

Lemma summarizeMonth_long_key_witness :
  (7 < String.length "10000-01")%nat
  /\ summarizeMonth [mkEntry "10000-01-05" normal 480 0] "10000-01"
     = mkMonthlySummary 0 0 0 0 0.
Proof.
  split; [cbn; lia|].
  apply (summarizeMonth_long_key [mkEntry "10000-01-05" normal 480 0] "10000-01").
  cbn; lia.
Defined.

End SummariesFurther.

(* ================================================================= *)
(** ** The round trip beyond a day *)

Section RoundTripFurther.

Lemma string_of_list_ascii_app l1 l2 :
  string_of_list_ascii (l1 ++ l2)
  = string_of_list_ascii l1 ++ string_of_list_ascii l2.
Proof. induction l1 as [|c l1 IH]; cbn; [|rewrite IH]; reflexivity. Qed.

Lemma spanDigits_nonempty cs ds :
  ds <> [] -> spanDigits 10 cs = (ds, []) -> cs <> [].
Proof. intros Hne H ->. cbn in H. congruence. Qed.

Lemma not_white_space c : 48 <= code c <= 57 -> isStrWhiteSpaceChar c = false.
Proof.
  intros H. unfold isStrWhiteSpaceChar.
  destruct (Z.leb_spec 9 (code c)), (Z.leb_spec (code c) 13),
    (Z.eqb_spec (code c) 32), (Z.eqb_spec (code c) 160); first [lia | reflexivity].
Qed.

Lemma dropWhile_digits cs :
  Forall (fun c => 48 <= code c <= 57) cs -> dropWhile isStrWhiteSpaceChar cs = cs.
Proof.
  intros [|c r Hc _]; [reflexivity|]. cbn [dropWhile].
  rewrite (not_white_space c Hc). reflexivity.
Qed.

Lemma trimChars_digits cs :
  Forall (fun c => 48 <= code c <= 57) cs -> trimChars cs = cs.
Proof.
  intros H. unfold trimChars. rewrite (dropWhile_digits cs H).
  rewrite dropWhile_digits by (apply Forall_rev, H). apply rev_involutive.
Qed.

Lemma hasColon_digits cs :
  Forall (fun c => 48 <= code c <= 57) cs -> hasColon (string_of_list_ascii cs) = false.
Proof.
  induction 1 as [|c r Hc _ IH]; [reflexivity|].
  cbn [string_of_list_ascii hasColon]. rewrite IH, orb_false_r.
  apply Ascii.eqb_neq. intros ->. vm_compute in Hc. destruct Hc as [_ Hc]. apply Hc. reflexivity.
Qed.

(** [Number] of a text of digits is the value of the digits. *)
Lemma StringToNumber_digits cs ds :
  ds <> [] -> spanDigits 10 cs = (ds, []) ->
  StringToNumber (string_of_list_ascii cs) = roundMV (inject_Z (digitsValue 10 ds)).
Proof.
  intros Hne Hspan. pose proof (spanDigits_all cs ds Hspan) as Hall.
  pose proof (spanDigits_nonempty cs ds Hne Hspan) as Hcs.
  unfold StringToNumber.
  rewrite list_ascii_of_string_of_list_ascii, (trimChars_digits cs Hall).
  destruct cs as [|c0 cs0]; [contradiction|].
  inversion Hall as [|? ? Hc0 Hrest]; subst.
  assert (nonDecimalIntegerLiteral (c0 :: cs0) = None) as Hnd.
  { unfold nonDecimalIntegerLiteral. destruct Hrest as [|c1 cs1 Hc1 _]; [reflexivity|].
    destruct (code c0 =? 48); [|reflexivity]. cbn [negb].
    destruct (Z.eqb_spec (code c1) 120), (Z.eqb_spec (code c1) 88),
      (Z.eqb_spec (code c1) 111), (Z.eqb_spec (code c1) 79),
      (Z.eqb_spec (code c1) 98), (Z.eqb_spec (code c1) 66); first [lia | reflexivity]. }
  unfold strNumericLiteral. rewrite Hnd.
  destruct (Z.eqb_spec (code c0) 43); [lia|].
  destruct (Z.eqb_spec (code c0) 45); [lia|].
  unfold strUnsignedDecimalLiteral.
  assert (String.eqb (string_of_list_ascii (c0 :: cs0)) "Infinity" = false) as ->.
  { cbn [string_of_list_ascii String.eqb].
    destruct (Ascii.eqb_spec c0 "I") as [->|]; [|reflexivity].
    vm_compute in Hc0. destruct Hc0 as [_ Hc0]. exfalso. apply Hc0. reflexivity. }
  rewrite Hspan. destruct ds; [contradiction|reflexivity].
Qed.

(** A field that [formatTime] writes is a text of digits, and its value
    is the number written. *)
Lemma padded_digits h :
  0 <= h ->
  exists cs ds,
    padStart 2 "0" (toString h) = string_of_list_ascii cs
    /\ ds <> [] /\ spanDigits 10 cs = (ds, []) /\ digitsValue 10 ds = h.
Proof.
  intros Hh. destruct (toString_nonneg_digits h Hh) as (cs & ds & Hs & Hne & Hspan & Hval).
  unfold padStart. rewrite Hs. generalize (2 - String.length (string_of_list_ascii cs))%nat.
  intros k. exists (repeat "0"%char k ++ cs)%list, (repeat 0 k ++ ds)%list.
  rewrite string_of_list_ascii_app. split; [reflexivity|].
  split; [destruct k; cbn; [exact Hne | discriminate]|].
  induction k as [|k [IHspan IHval]]; [split; assumption|].
  cbn [repeat app]. split.
  - change "0"%char with (ascii_of_N (Z.to_N (48 + 0))).
    rewrite spanDigits_digit by lia.
    change (ascii_of_N (Z.to_N (48 + 0))) with "0"%char. rewrite IHspan. reflexivity.
  - exact IHval.
Qed.

(** X24: the round trip holds for every count of minutes from 0 to
    [2^53], not only within a day: a monthly total that [formatTime]
    writes with three digits of hours or more parses back too. *)
Theorem parseTime_formatTime_any_total (m : Z) :
  0 <= m <= 2 ^ 53 -> parseTime (formatTime m) = Return (ofZ m).
Proof.
  intros Hm53. assert (0 <= m < 10 ^ 21) as Hm.
  { assert (2 ^ 53 < 10 ^ 21) as Hbound by reflexivity. lia. }
  unfold formatTime. rewrite Z.rem_mod_nonneg by lia.
  assert (10 ^ 21 = 1000000000000000000000) as Hpow by reflexivity.
  assert (0 <= m / 60 < 10 ^ 21) as Hh
    by (split; [apply Z.div_pos; lia | apply Z.div_lt_upper_bound; lia]).
  pose proof (Z.mod_pos_bound m 60 ltac:(lia)) as Hr.
  destruct (padded_digits (m / 60) ltac:(lia)) as (hs & hd & -> & Hhne & Hhspan & Hhval).
  destruct (padded_digits (m mod 60) ltac:(lia)) as (ms & md & -> & Hmne & Hmspan & Hmval).
  unfold parseTime.
  change (":" ++ string_of_list_ascii ms) with (String ":" (string_of_list_ascii ms)).
  rewrite split_field by (apply hasColon_digits, (spanDigits_all hs hd Hhspan)).
  rewrite split_no_colon by (apply hasColon_digits, (spanDigits_all ms md Hmspan)).
  cbn [index nth_error Number].
  rewrite (StringToNumber_digits hs hd Hhne Hhspan), (StringToNumber_digits ms md Hmne Hmspan).
  rewrite Hhval, Hmval, !no_overflow_below_1e21 by lia.
  cbn [ofZ isFinite negb orb]. fold (ofZ (m / 60)) (ofZ 60) (ofZ (m mod 60)).
  rewrite mul_add_ofZ. do 2 f_equal.
  pose proof (Z.div_mod m 60 ltac:(lia)). lia.
Qed.

Lemma parseTime_formatTime_any_total_witness :
  0 <= 9605 <= 2 ^ 53 /\ parseTime (formatTime 9605) = Return (ofZ 9605).
Proof.
  assert (0 <= 9605 <= 2 ^ 53) as H by (vm_compute; split; discriminate).
  split; [exact H | apply (parseTime_formatTime_any_total 9605 H)].
Defined.

End RoundTripFurther.

(* ================================================================= *)
(** ** The calendar and the summary of the month *)

Section CalendarAndSummary.

Lemma nth_error_zrange n : forall a i,
  (i < n)%nat -> nth_error (zrange a n) i = Some (a + Z.of_nat i).
Proof.
  induction n as [|n IH]; intros a i Hi; [lia|].
  destruct i as [|i]; cbn [zrange nth_error]; [f_equal; lia|].
  rewrite IH by lia. f_equal. lia.
Qed.

(** X25: day [d] of the month is the cell number [leading + d - 1] of
    the grid (counted from 0), so that the first of the month stands in
    the column of its weekday and each later day one column further. *)
Theorem calendarCells_day_position (y m days leading prevDays d : Z) :
  0 <= leading -> 1 <= d <= days ->
  nth_error (calendarCells y m days leading prevDays) (Z.to_nat (leading + d - 1))
  = Some (cellDate y m d, true).
Proof.
  intros Hl Hd. unfold calendarCells.
  rewrite nth_error_app2; rewrite length_map, length_rev, zrange_length; [|lia].
  replace (Z.to_nat (leading + d - 1) - Z.to_nat leading)%nat
    with (Z.to_nat (d - 1)) by lia.
  rewrite nth_error_app1 by (rewrite length_map, zrange_length; lia).
  rewrite nth_error_map, nth_error_zrange by lia.
  cbn [option_map]. do 3 f_equal. lia.
Qed.

Lemma calendarCells_day_position_witness :
  (0 <= 4 /\ 1 <= 15 <= 31)
  /\ nth_error (calendarCells 2024 3 31 4 29) (Z.to_nat (4 + 15 - 1))
     = Some (cellDate 2024 3 15, true).
Proof.
  split; [lia | apply (calendarCells_day_position 2024 3 31 4 29 15); lia].
Defined.

Lemma toString_four_digits y :
  1000 <= y <= 9999 -> String.length (toString y) = 4%nat.
Proof.
  intros Hy. apply Nat.eqb_eq.
  apply (forallb_zrange (fun y => Nat.eqb (String.length (toString y)) 4)
           1000 (Z.to_nat 9000));
    [vm_compute; reflexivity | lia].
Qed.

Lemma length_append a b :
  String.length (a ++ b) = (String.length a + String.length b)%nat.
Proof. induction a as [|c a IH]; cbn [append String.length]; [|rewrite IH]; reflexivity. Qed.

Lemma append_assoc a b c : (a ++ b) ++ c = a ++ (b ++ c).
Proof. induction a as [|x a IH]; cbn [append]; [|rewrite IH]; reflexivity. Qed.

(** The first seven characters of the date of a cell are the month key
    [YYYY-MM], for a year of four digits. *)
Lemma cellDate_month_key y m d :
  1000 <= y <= 9999 -> 1 <= m <= 12 ->
  slice0 7 (cellDate y m d) = toString y ++ "-" ++ padStart 2 "0" (toString m).
Proof.
  intros Hy Hm. unfold slice0, cellDate.
  set (key := toString y ++ "-" ++ padStart 2 "0" (toString m)).
  assert (String.length key = 7%nat) as Hlen.
  { unfold key. rewrite !length_append, toString_four_digits by assumption.
    rewrite padStart_toString by lia. reflexivity. }
  replace (toString y ++ "-" ++ padStart 2 "0" (toString m)
             ++ "-" ++ padStart 2 "0" (toString d))
    with (key ++ ("-" ++ padStart 2 "0" (toString d)))
    by (unfold key; rewrite !append_assoc; reflexivity).
  rewrite <- Hlen. apply substring_prefix.
Qed.

(** X26: the calendar and the summary agree on the month: an entry
    stored under the date of a cell of the month is one of the entries
    that [renderSummary] counts for the month, when the pickers hold the
    year in four digits and the month in two, as the month buttons write
    them. *)
Theorem calendar_cell_entry_in_month_summary
    (entries : list Entry) (e : Entry) (y m d : Z) :
  1000 <= y <= 9999 -> 1 <= m <= 12 ->
  In e entries -> date e = cellDate y m d ->
  In e (monthEntries entries (toString y ++ "-" ++ padStart 2 "0" (toString m))).
Proof.
  intros Hy Hm Hin Hdate. unfold monthEntries. apply filter_In. split; [exact Hin|].
  rewrite Hdate, cellDate_month_key by assumption. apply String.eqb_refl.
Qed.

Lemma calendar_cell_entry_in_month_summary_witness :
  let e := mkEntry "2024-03-15" normal 480 0 in
  (1000 <= 2024 <= 9999 /\ 1 <= 3 <= 12 /\ In e [e] /\ date e = cellDate 2024 3 15)
  /\ In e (monthEntries [e] (toString 2024 ++ "-" ++ padStart 2 "0" (toString 3))).
Proof.
  cbv zeta. split.
  - split; [lia | split; [lia | split; [left; reflexivity | reflexivity]]].
  - apply (calendar_cell_entry_in_month_summary
             [mkEntry "2024-03-15" normal 480 0] (mkEntry "2024-03-15" normal 480 0)
             2024 3 15); [lia | lia | left; reflexivity | reflexivity].
Defined.

End CalendarAndSummary.
